(** * GoitomServices: the record-ingestion and aggregation pipeline

    A shallow embedding of [server.ts] (the Express handlers and the SQL
    they run) and of the handlers of [src/App.tsx] that talk to it, with
    the properties of the specification, and further properties of the
    code, proved about it.

    Conventions of the embedding
    - a JavaScript string is its sequence of UTF-16 code units;
    - a JavaScript number is an IEEE-754 binary64 value.  Counts, which
      are always integer valued, are kept in the type [number]; cash
      amounts are [double]s ([spec_float] at precision 53);
    - the members of a request have the types the page sends (the
      interfaces of [src/App.tsx]): strings and numbers, where [role] and
      [password] may be left out and [cashAmount] may be left out or
      [null].  A member that is [null] or of another JSON type is outside
      the model, so no email, role or [user_id] of the tables is NULL and
      no amount is a text;
    - a timestamp is the number of seconds since the epoch, in UTC, which
      is what [CURRENT_TIMESTAMP] denotes; [date(timestamp)] is its day.
      The texts the engine keeps for both are ordered the same way;
    - the database engine is a parameter where the source does not fix it
      (how REAL sums are accumulated, what [sum()] gives for counts that
      are not all of the INTEGER class, whether foreign keys are enforced,
      whether a statement with LIMIT computes the sums of the groups it
      does not return).  [sum()] over counts of the INTEGER class is the
      engine's 64-bit addition in the order of the rows, and an overflow
      is the exception [integer overflow];
    - ORDER BY is a stable sort over the rows in table order.  The order
      among rows with equal keys is the engine's choice; no property below
      depends on it except where it says so. *)

From Stdlib Require Import ZArith NArith List Bool Lia String Ascii.
From Stdlib Require Import Permutation Sorted.
From Stdlib Require Import Floats.SpecFloat.
Import ListNotations.
Local Open Scope Z_scope.

(* ================================================================== *)
(** * JavaScript values and built-ins used by the handlers *)
(* ================================================================== *)

Module Js.

(** Strings: sequences of UTF-16 code units. *)
Definition jsstring := list N.

(** A string literal of the source (code units below 256). *)
Definition lit (s : string) : jsstring :=
  map N_of_ascii (list_ascii_of_string s).

Definition jsstring_eqb (a b : jsstring) : bool :=
  if list_eq_dec N.eq_dec a b then true else false.

(** [!s] for a string: only the empty string is falsy. *)
Definition str_truthy (s : jsstring) : bool :=
  match s with [] => false | _ => true end.

(** The class [0-9]. *)
Definition isDigit (c : N) : bool := ((48 <=? c) && (c <=? 57))%N.

(** WhiteSpace and LineTerminator code points, as stripped by [trim]. *)
Definition isWhiteSpace (c : N) : bool :=
  ((c =? 9) || (c =? 10) || (c =? 11) || (c =? 12) || (c =? 13) ||
   (c =? 32) || (c =? 160) || (c =? 5760) ||
   ((8192 <=? c) && (c <=? 8202)) ||
   (c =? 8232) || (c =? 8233) || (c =? 8239) || (c =? 8287) ||
   (c =? 12288) || (c =? 65279))%N.

Fixpoint dropWhile {A} (p : A -> bool) (l : list A) : list A :=
  match l with
  | [] => []
  | x :: t => if p x then dropWhile p t else l
  end.

Fixpoint takeWhile {A} (p : A -> bool) (l : list A) : list A :=
  match l with
  | [] => []
  | x :: t => if p x then x :: takeWhile p t else []
  end.

Definition trimStart (s : jsstring) : jsstring := dropWhile isWhiteSpace s.
Definition trimEnd (s : jsstring) : jsstring :=
  rev (dropWhile isWhiteSpace (rev s)).

(** [String.prototype.trim]. *)
Definition trim (s : jsstring) : jsstring := trimEnd (trimStart s).

(** [s.replace(/[^0-9]/g, '')]: every code unit outside [0-9] is deleted. *)
Definition replace_non_digits (s : jsstring) : jsstring := filter isDigit s.

(** [s.split(sep)] for a one-character separator: the segments between
    the occurrences of [sep]; always at least one segment. *)
Fixpoint split (sep : N) (s : jsstring) : list jsstring :=
  match s with
  | [] => [[]]
  | c :: t =>
      if (c =? sep)%N then [] :: split sep t
      else match split sep t with
           | [] => [[c]]
           | seg :: segs => (c :: seg) :: segs
           end
  end.

(** ** Numbers *)

(** binary64. *)
Definition double := spec_float.
Definition prec : Z := 53.
Definition emax : Z := 1024.

(** The integer-valued numbers, NaN and the infinities: the values
    [parseInt] can return.  The sign of a zero is not kept (no operation
    of the handlers observes it). *)
Inductive number :=
| NaN
| Int (z : Z)
| Inf (negative : bool).

(** The binary64 value nearest to an integer (ties to even). *)
Definition Z2double (z : Z) : double := binary_normalize prec emax z 0 false.

(** A double that is a number and is not below 0. *)
Definition nonneg_double (d : double) : Prop :=
  match d with
  | S754_nan => False
  | S754_zero _ => True
  | S754_infinity s | S754_finite s _ _ => s = false
  end.

(** The integer part of a double. *)
Definition double_trunc (d : double) : number :=
  match d with
  | S754_nan => NaN
  | S754_infinity s => Inf s
  | S754_zero _ => Int 0
  | S754_finite s m e =>
      let v := if 0 <=? e then Z.pos m * 2 ^ e else Z.pos m / 2 ^ (- e) in
      Int (if s then - v else v)
  end.

(** Conversion of a mathematical integer to a Number value. *)
Definition toNumber (z : Z) : number := double_trunc (Z2double z).

(** Truthiness of a number: NaN and zero are falsy. *)
Definition num_truthy (x : number) : bool :=
  match x with
  | NaN => false
  | Int z => negb (z =? 0)
  | Inf _ => true
  end.

(** [x || 0]. *)
Definition or_zero (x : number) : number := if num_truthy x then x else Int 0.

(** Numeric order on numbers; nothing is below or above NaN. *)
Definition num_leb (a b : number) : bool :=
  match a, b with
  | NaN, _ | _, NaN => false
  | Inf true, _ => true
  | _, Inf false => true
  | Int x, Int y => x <=? y
  | _, _ => false
  end.

(** Value of a digit in radix 10 or 16. *)
Definition digit_value (radix : Z) (c : N) : option Z :=
  let v :=
    if isDigit c then Some (Z.of_N c - 48)
    else if ((97 <=? c) && (c <=? 102))%N then Some (Z.of_N c - 87)
    else if ((65 <=? c) && (c <=? 70))%N then Some (Z.of_N c - 55)
    else None in
  match v with
  | Some d => if d <? radix then Some d else None
  | None => None
  end.

Definition is_radix_digit (radix : Z) (c : N) : bool :=
  match digit_value radix c with Some _ => true | None => false end.

(** Mathematical value of a string of radix digits, most significant
    first. *)
Definition digits_value (radix : Z) (s : jsstring) : Z :=
  fold_left
    (fun acc c => acc * radix + match digit_value radix c with
                                | Some d => d | None => 0 end)
    s 0.

(** A leading sign, and the rest. *)
Definition read_sign (s : jsstring) : bool * jsstring :=
  match s with
  | c :: t => if (c =? 45)%N then (true, t)
              else if (c =? 43)%N then (false, t)
              else (false, s)
  | [] => (false, s)
  end.

(** A leading [0x] or [0X] selects radix 16. *)
Definition read_radix (s : jsstring) : Z * jsstring :=
  match s with
  | a :: b :: t => if ((a =? 48) && ((b =? 120) || (b =? 88)))%N
                   then (16, t) else (10, s)
  | _ => (10, s)
  end.

(** [parseInt(s)] with no radix argument: leading white space is skipped,
    a sign is read, a [0x] prefix selects radix 16, and the longest run of
    digits is converted; NaN when that run is empty. *)
Definition parseInt (s : jsstring) : number :=
  let '(neg, s2) := read_sign (trimStart s) in
  let '(radix, s3) := read_radix s2 in
  match takeWhile (is_radix_digit radix) s3 with
  | [] => NaN
  | ds => let v := digits_value radix ds in
          toNumber (if neg then - v else v)
  end.

End Js.

(* ================================================================== *)
(** * The database engine *)
(* ================================================================== *)

Module Sqlite.
Import Js.

(** ** Storage classes *)

(** A count bound to the INTEGER column is stored with the INTEGER class
    when it is a whole number strictly within the 64-bit range, as NULL
    when it is NaN, and with the REAL class otherwise ([2 ^ 63] and
    above, the infinities). *)
Definition is_integer (x : number) : bool :=
  match x with
  | Int z => (- 2 ^ 63 <? z) && (z <? 2 ^ 63)
  | _ => false
  end.

Definition int_of (x : number) : Z :=
  match x with Int z => z | _ => 0 end.

(** The value of a number as a double. *)
Definition to_double (x : number) : double :=
  match x with
  | NaN => S754_nan
  | Int z => Z2double z
  | Inf s => S754_infinity s
  end.

(** What [sum()] gives: a value, NULL being written [NaN], or the
    exception "integer overflow". *)
Inductive summed :=
| Summed (x : number)
| IntegerOverflow.

(** What the source leaves to the engine: how [sum()] accumulates REAL
    values (in the order the rows of a group are visited), what it gives
    for values that are not all of the INTEGER class, whether foreign keys
    are enforced, and whether a query with LIMIT computes the sums of the
    groups it does not report. *)
Record engine := {
  real_sum : list double -> double;
  foreign_keys : bool;
  count_sum : list number -> summed;
  finalizes_all_groups : bool
}.

Definition dzero : double := S754_zero false.
Definition dadd : double -> double -> double := SFadd prec emax.

Definition is_nan (d : double) : bool :=
  match d with S754_nan => true | _ => false end.


(** A running binary64 sum. *)
Definition sum_running (l : list double) : double := fold_left dadd l dzero.



(** ** sum() over INTEGER values *)

Definition in_int64 (z : Z) : bool := (- 2 ^ 63 <=? z) && (z <? 2 ^ 63).

(** 64-bit addition of the values one after the other; [None] as soon
    as a partial sum leaves the 64-bit range. *)
Fixpoint sum_int64 (acc : Z) (l : list Z) : option Z :=
  match l with
  | [] => Some acc
  | z :: t => if in_int64 (acc + z) then sum_int64 (acc + z) t else None
  end.

(** SQLite before 3.44, for values that are not all of the INTEGER class:
    every value is added to a running double; the exception is raised
    when the INTEGER values that come before the first REAL one
    overflow. *)
Definition plain_count_sum (vs : list number) : summed :=
  match sum_int64 0 (map int_of (takeWhile is_integer vs)) with
  | None => IntegerOverflow
  | Some _ =>
      Summed (double_trunc (fold_left dadd (map to_double vs) dzero))
  end.






(** The two engines; both stop at the LIMIT. *)
Definition running_engine (fk : bool) : engine :=
  {| real_sum := sum_running; foreign_keys := fk;
     count_sum := plain_count_sum; finalizes_all_groups := false |}.


(** ** ORDER BY: a stable sort *)

Section OrderBy.
Context {A : Type}.
(** [before x y]: [x] may come before [y]. *)
Variable before : A -> A -> bool.

Fixpoint insert (x : A) (l : list A) : list A :=
  match l with
  | [] => [x]
  | y :: t => if before x y then x :: l else y :: insert x t
  end.

Definition sort (l : list A) : list A := fold_right insert [] l.
End OrderBy.

(** [ORDER BY key DESC], for a key compared by [leb]. *)
Definition order_by_desc {A K} (leb : K -> K -> bool) (key : A -> K)
    (l : list A) : list A :=
  sort (fun x y => leb (key y) (key x)) l.

(** ** GROUP BY *)

Section GroupBy.
Context {A K : Type}.
Variable eqb : K -> K -> bool.
Variable key : A -> K.

(** The distinct keys, each at its first occurrence. *)
Fixpoint distinct (l : list K) : list K :=
  match l with
  | [] => []
  | k :: t => k :: filter (fun k' => negb (eqb k k')) (distinct t)
  end.

(** The rows of the group of [k], in the order of the table. *)
Definition group (k : K) (rows : list A) : list A :=
  filter (fun r => eqb (key r) k) rows.

Definition group_by (rows : list A) : list (K * list A) :=
  map (fun k => (k, group k rows)) (distinct (map key rows)).
End GroupBy.

(** ** sum() *)

(** NULL is written [NaN] in an INTEGER column read as a [number]. *)
Definition not_null (x : number) : bool :=
  match x with NaN => false | _ => true end.

(** [SUM] over an INTEGER column: NULLs are skipped and no value gives
    NULL; values all of the INTEGER class are added in 64 bits, in the
    order of the rows, and an overflow is an exception; the rest is the
    engine's. *)
Definition sum_integer (E : engine) (l : list number) : summed :=
  match filter not_null l with
  | [] => Summed NaN
  | vs =>
      if forallb is_integer vs then
        match sum_int64 0 (map int_of vs) with
        | Some z => Summed (Int z)
        | None => IntegerOverflow
        end
      else count_sum E vs
  end.

Definition summed_total (s : summed) : number :=
  match s with Summed x => x | IntegerOverflow => NaN end.

Definition overflows (s : summed) : bool :=
  match s with IntegerOverflow => true | Summed _ => false end.

Fixpoint non_null {A} (l : list (option A)) : list A :=
  match l with
  | [] => []
  | Some x :: t => x :: non_null t
  | None :: t => non_null t
  end.

(** [SUM] over a REAL column: NULLs are skipped, no value gives NULL, and
    a NaN result is NULL. *)
Definition sum_real (E : engine) (l : list (option double)) : option double :=
  match non_null l with
  | [] => None
  | vs => let d := real_sum E vs in if is_nan d then None else Some d
  end.

(** Order of values in ORDER BY: NULL first, then numeric order. *)
Definition sql_leb (a b : number) : bool :=
  match a, b with
  | NaN, _ => true
  | _, NaN => false
  | _, _ => num_leb a b
  end.

End Sqlite.

(* ================================================================== *)
(** * server.ts *)
(* ================================================================== *)

Module Server.
Import Js Sqlite.

(** ** Tables *)

(** A row of [users]. *)
Record user := {
  u_id : Z;
  u_email : jsstring;
  u_password : jsstring;
  u_role : jsstring;
  u_name : jsstring
}.

(** A row of [records].  [cash_amount] is [None] for NULL; [timestamp] is
    the value of [CURRENT_TIMESTAMP] at the insertion. *)
Record record := {
  id : Z;
  user_id : Z;
  employee_name : jsstring;
  provider_name : jsstring;
  bread_count : number;
  cash_amount : option double;
  image_url : jsstring;
  timestamp : Z
}.

(** The database file: the two tables and, for each, the largest rowid
    handed out so far (AUTOINCREMENT). *)
Record database := {
  users : list user;
  records : list record;
  users_seq : Z;
  records_seq : Z
}.

Definition empty_db : database :=
  {| users := []; records := []; users_seq := 0; records_seq := 0 |}.

(** A statement either completes or throws. *)
Inductive result (A : Type) :=
| Done (a : A)
| Throws (message : string).
Arguments Done {A} a.
Arguments Throws {A} message.

Definition valid_role (r : jsstring) : bool :=
  jsstring_eqb r (lit "admin") || jsstring_eqb r (lit "employee").

(** [INSERT INTO users (email, password, name, role) VALUES (?, ?, ?, ?)]:
    the email is UNIQUE and the role is CHECKed. *)
Definition insert_user (db : database) (email password name role : jsstring)
  : result (database * Z) :=
  if existsb (fun u => jsstring_eqb (u_email u) email) (users db)
  then Throws "UNIQUE constraint failed: users.email"
  else if negb (valid_role role)
  then Throws "CHECK constraint failed: role"
  else
    let rowid := users_seq db + 1 in
    Done ({| users := users db ++
                      [{| u_id := rowid; u_email := email;
                          u_password := password; u_role := role;
                          u_name := name |}];
             records := records db;
             users_seq := rowid;
             records_seq := records_seq db |}, rowid).

(** Seeding of the administrator when the server starts. *)
Definition seed_admin (db : database) : database :=
  if existsb (fun u => jsstring_eqb (u_role u) (lit "admin")) (users db)
  then db
  else match insert_user db (lit "admin@goitom.com") (lit "admin123")
                         (lit "Administrator") (lit "admin") with
       | Done (db', _) => db'
       | Throws _ => db
       end.

(** [FOREIGN KEY(user_id) REFERENCES users(id)], when enforced. *)
Definition foreign_key_violation (E : engine) (db : database) (userId : Z)
  : bool :=
  foreign_keys E && negb (existsb (fun u => u_id u =? userId) (users db)).

(** [INSERT INTO records (user_id, employee_name, provider_name,
    bread_count, cash_amount, image_url) VALUES (?, ?, ?, ?, ?, ?)]: the
    rowid is generated and the timestamp defaults to the current time. *)
Definition insert_record (E : engine) (now : Z) (db : database)
    (userId : Z) (employeeName providerName : jsstring)
    (breadCount : number) (cash : option double) (image : jsstring)
  : result (database * Z) :=
  if foreign_key_violation E db userId
  then Throws "FOREIGN KEY constraint failed"
  else
    let rowid := records_seq db + 1 in
    Done ({| users := users db;
             records := records db ++
                        [{| id := rowid; user_id := userId;
                            employee_name := employeeName;
                            provider_name := providerName;
                            bread_count := breadCount;
                            cash_amount := cash;
                            image_url := image;
                            timestamp := now |}];
             users_seq := users_seq db;
             records_seq := rowid |}, rowid).

(** ** The vision service *)

Record inlineData := {
  mimeType : jsstring;
  data : option jsstring
}.

(** The argument of [ai.models.generateContent]: one text part and one
    image part. *)
Record generate_request := {
  model : jsstring;
  text : jsstring;
  inline : inlineData
}.

(** The awaited call either rejects or resolves to a response, whose
    [text] may be undefined. *)
Inductive generate_outcome :=
| Rejects
| Resolves (text : option jsstring).

(** What a handler finds around it: the process environment, the remote
    service and the clock. *)
Record environment := {
  GEMINI_API_KEY : option jsstring;
  generateContent : generate_request -> generate_outcome;
  now : Z
}.

(** ** Requests and responses *)

(** The [cashAmount] member of a JSON body: left out, [null] or a
    number.  A string, a boolean, an array or an object is outside the
    model. *)
Inductive cash_field :=
| CashAbsent
| CashNull
| CashNum (x : double).

(** The body of [POST /api/records]; [userId] is a number and the names
    and the image are strings. *)
Record record_body := {
  userId : Z;
  employeeName : jsstring;
  providerName : jsstring;
  imageBase64 : jsstring;
  cashAmount : cash_field
}.

Record day_row := {
  day_date : Z;
  day_total : number;
  day_total_cash : option double
}.

Record employee_row := {
  emp_employee_name : jsstring;
  emp_total : number;
  emp_total_cash : option double
}.

(** A user without the password. *)
Record user_info := {
  i_id : Z;
  i_email : jsstring;
  i_name : jsstring;
  i_role : jsstring
}.

Inductive response :=
| Created (id : Z) (breadCount : number)
| Failed (status : Z) (error : string)
| Records (rows : list record)
| Stats (totalByDay : list day_row) (totalByEmployee : list employee_row)
| User (u : option user_info)
| Users (us : list user_info)
| Success
| Health (time : Z).

(** ** POST /api/records *)

Definition prompt : jsstring :=
  lit ("Count the number of breads in this image. "
       ++ "Return ONLY the integer number. If no bread is found, return 0.").

(** The request sent to the vision service for a body. *)
Definition vision_request (b : record_body) : generate_request :=
  {| model := lit "gemini-3-flash-preview";
     text := prompt;
     inline := {| mimeType := lit "image/jpeg";
                  data := nth_error (split 44%N (imageBase64 b)) 1 |} |}.

(** [response.text?.trim() || "0"]. *)
Definition countText (text : option jsstring) : jsstring :=
  match text with
  | None => lit "0"
  | Some s => if str_truthy (trim s) then trim s else lit "0"
  end.

(** [parseInt(countText.replace(/[^0-9]/g, '')) || 0]. *)
Definition breadCount (text : option jsstring) : number :=
  or_zero (parseInt (replace_non_digits (countText text))).

(** [!process.env.GEMINI_API_KEY]. *)
Definition key_missing (env : environment) : bool :=
  match GEMINI_API_KEY env with
  | None => true
  | Some k => negb (str_truthy k)
  end.

(** The value bound for [cash_amount]: the destructuring default is taken
    for an absent member only. *)
Definition bound_cash (c : cash_field) : option double :=
  match c with
  | CashAbsent => Some dzero
  | CashNull => None
  | CashNum x => Some x
  end.

Definition post_records (E : engine) (env : environment) (b : record_body)
    (db : database) : database * response :=
  if key_missing env then
    (db, Failed 500 "Gemini API key not configured")
  else
    match generateContent env (vision_request b) with
    | Rejects => (db, Failed 500 "Failed to process image")
    | Resolves reply =>
        let count := breadCount reply in
        match insert_record E (now env) db (userId b) (employeeName b)
                (providerName b) count (bound_cash (cashAmount b))
                (imageBase64 b) with
        | Throws _ => (db, Failed 500 "Failed to process image")
        | Done (db', rowid) => (db', Created rowid count)
        end
    end.

(** ** GET /api/records *)

Definition by_timestamp_desc (rows : list record) : list record :=
  order_by_desc Z.leb timestamp rows.

Definition get_records (userId : Z) (role : jsstring) (db : database)
  : list record :=
  if jsstring_eqb role (lit "admin")
  then by_timestamp_desc (records db)
  else by_timestamp_desc (filter (fun r => user_id r =? userId) (records db)).

(** ** GET /api/stats *)

(** [date(timestamp)]: the day of a timestamp, in UTC. *)
Definition date (t : Z) : Z := t / 86400.

(** [SUM(bread_count)] over the rows of a group. *)
Definition count_of_group {K} (E : engine) (g : K * list record) : summed :=
  sum_integer E (map bread_count (snd g)).

(** The row selected for a group: its key, [SUM(bread_count)] and
    [SUM(cash_amount)]. *)
Definition day_row_of (E : engine) (g : Z * list record) : day_row :=
  {| day_date := fst g;
     day_total := summed_total (count_of_group E g);
     day_total_cash := sum_real E (map cash_amount (snd g)) |}.

Definition employee_row_of (E : engine) (g : jsstring * list record)
  : employee_row :=
  {| emp_employee_name := fst g;
     emp_total := summed_total (count_of_group E g);
     emp_total_cash := sum_real E (map cash_amount (snd g)) |}.

(** The groups of [GROUP BY date(timestamp) ORDER BY date DESC]. *)
Definition day_groups (rows : list record) : list (Z * list record) :=
  order_by_desc Z.leb fst
    (group_by Z.eqb (fun r => date (timestamp r)) rows).

(** The first query: the rows of the 7 most recent days.  The statement
    throws when a sum it computes overflows. *)
Definition totalByDay (E : engine) (rows : list record)
  : result (list day_row) :=
  let reported := firstn 7 (day_groups rows) in
  let computed :=
    if finalizes_all_groups E then day_groups rows else reported in
  if existsb (fun g => overflows (count_of_group E g)) computed
  then Throws "integer overflow"
  else Done (map (day_row_of E) reported).

(** The groups of [GROUP BY employee_name], and their rows by [total]
    descending. *)
Definition employee_groups (rows : list record)
  : list (jsstring * list record) :=
  group_by jsstring_eqb employee_name rows.

Definition employee_rows (E : engine) (rows : list record)
  : list employee_row :=
  order_by_desc sql_leb emp_total
    (map (employee_row_of E) (employee_groups rows)).

(** The second query; ordering by the sums computes them all. *)
Definition totalByEmployee (E : engine) (rows : list record)
  : result (list employee_row) :=
  if existsb (fun g => overflows (count_of_group E g)) (employee_groups rows)
  then Throws "integer overflow"
  else Done (employee_rows E rows).

(** The handler has no [try]: a statement that throws is answered by the
    framework with status 500. *)
Definition get_stats (E : engine) (db : database) : response :=
  match totalByDay E (records db) with
  | Throws message => Failed 500 message
  | Done byDay =>
      match totalByEmployee E (records db) with
      | Throws message => Failed 500 message
      | Done byEmployee => Stats byDay byEmployee
      end
  end.

(** ** Users *)

Definition info (u : user) : user_info :=
  {| i_id := u_id u; i_email := u_email u; i_name := u_name u;
     i_role := u_role u |}.

Definition login (email password : jsstring) (db : database) : response :=
  match find (fun u => jsstring_eqb (u_email u) email &&
                       jsstring_eqb (u_password u) password) (users db) with
  | Some u => User (Some (info u))
  | None => Failed 401 "Invalid credentials"
  end.

Definition signup (email password name : jsstring) (role : option jsstring)
    (db : database) : database * response :=
  let role := match role with Some r => r | None => lit "employee" end in
  match insert_user db email password name role with
  | Done (db', rowid) =>
      (db', User (Some {| i_id := rowid; i_email := email; i_name := name;
                          i_role := role |}))
  | Throws _ => (db, Failed 400 "Email already exists")
  end.

(** [SELECT id, email, name, role FROM users WHERE role != 'admin'];
    no role of the table is NULL. *)
Definition get_users (db : database) : response :=
  Users (map info
           (filter (fun u => negb (jsstring_eqb (u_role u) (lit "admin")))
                   (users db))).

(** [UPDATE users SET email = ?, name = ? (, password = ?) WHERE id = ?]. *)
Definition update_user (uid : Z) (email name : jsstring)
    (password : option jsstring) (db : database) : result database :=
  if existsb (fun u => (u_id u =? uid)) (users db) &&
     existsb (fun u => negb (u_id u =? uid) && jsstring_eqb (u_email u) email)
             (users db)
  then Throws "UNIQUE constraint failed: users.email"
  else
    Done {| users :=
              map (fun u =>
                     if u_id u =? uid then
                       {| u_id := u_id u; u_email := email;
                          u_password := match password with
                                        | Some p => p
                                        | None => u_password u
                                        end;
                          u_role := u_role u; u_name := name |}
                     else u) (users db);
            records := records db;
            users_seq := users_seq db;
            records_seq := records_seq db |}.

Definition put_profile (uid : Z) (email name : jsstring)
    (password : option jsstring) (db : database) : database * response :=
  let password := match password with
                  | Some p => if str_truthy p then Some p else None
                  | None => None
                  end in
  match update_user uid email name password db with
  | Done db' =>
      (db', User (option_map info (find (fun u => u_id u =? uid) (users db'))))
  | Throws _ => (db, Failed 400 "Email já existe ou erro ao atualizar")
  end.

(** [DELETE FROM users WHERE id = ?]; the handler has no [try], so a
    throw reaches the framework's error handler. *)
Definition delete_user (E : engine) (uid : Z) (db : database)
  : database * response :=
  if foreign_keys E && existsb (fun r => user_id r =? uid) (records db) &&
     existsb (fun u => u_id u =? uid) (users db)
  then (db, Failed 500 "FOREIGN KEY constraint failed")
  else ({| users := filter (fun u => negb (u_id u =? uid)) (users db);
           records := records db;
           users_seq := users_seq db;
           records_seq := records_seq db |}, Success).

(** ** The routes *)

(** The requests; the members are strings and numbers, and [None] is a
    member left out of the body. *)
Inductive request :=
| GetHealth
| PostLogin (email password : jsstring)
| PostSignup (email password name : jsstring) (role : option jsstring)
| PostRecords (body : record_body)
| GetRecords (userId : Z) (role : jsstring)
| GetUsers
| PutProfile (id : Z) (email name : jsstring) (password : option jsstring)
| DeleteUser (id : Z)
| GetStats.

Definition handle (E : engine) (env : environment) (req : request)
    (db : database) : database * response :=
  match req with
  | GetHealth => (db, Health (now env))
  | PostLogin e p => (db, login e p db)
  | PostSignup e p n r => signup e p n r db
  | PostRecords b => post_records E env b db
  | GetRecords u r => (db, Records (get_records u r db))
  | GetUsers => (db, get_users db)
  | PutProfile i e n p => put_profile i e n p db
  | DeleteUser i => delete_user E i db
  | GetStats => (db, get_stats E db)
  end.

(** The database after a sequence of requests, each served in its own
    environment. *)
Fixpoint serve (E : engine) (reqs : list (environment * request))
    (db : database) : database :=
  match reqs with
  | [] => db
  | (env, req) :: rest => serve E rest (fst (handle E env req db))
  end.

End Server.

(* ================================================================== *)
(** * src/App.tsx: publishing a capture *)
(* ================================================================== *)

Module Client.
Import Js Sqlite Server.

(** [10 ^ k] as a positive number. *)
Definition pow10 (k : Z) : positive := Z.to_pos (10 ^ k).

(** The binary64 value nearest to [m * 10 ^ k], for [0 < m]. *)
Definition decimal_to_double (negative : bool) (m : positive) (k : Z)
  : double :=
  if 0 <=? k then
    binary_normalize prec emax
      (if negative then Z.neg (m * pow10 k) else Z.pos (m * pow10 k)) 0 false
  else
    SFdiv prec emax (S754_finite negative m 0)
                    (S754_finite false (pow10 (- k)) 0).

Fixpoint starts_with (p s : jsstring) : bool :=
  match p, s with
  | [], _ => true
  | a :: p', b :: s' => (a =? b)%N && starts_with p' s'
  | _ :: _, [] => false
  end.

(** The exponent part at the head of [s], when there is a complete one. *)
Definition read_exponent (s : jsstring) : Z :=
  match s with
  | c :: t =>
      if ((c =? 101) || (c =? 69))%N then
        let '(neg, t') := read_sign t in
        match takeWhile isDigit t' with
        | [] => 0
        | ds => if neg then - digits_value 10 ds else digits_value 10 ds
        end
      else 0
  | [] => 0
  end.

(** [parseFloat(s)]: leading white space is skipped and the longest
    prefix that is a decimal literal is converted; NaN when there is
    none. *)
Definition parseFloat (s : jsstring) : double :=
  let '(neg, s1) := read_sign (trimStart s) in
  if starts_with (lit "Infinity") s1 then S754_infinity neg
  else
    let ip := takeWhile isDigit s1 in
    let r1 := dropWhile isDigit s1 in
    let '(fp, r2) :=
      match r1 with
      | c :: t => if (c =? 46)%N
                  then (takeWhile isDigit t, dropWhile isDigit t)
                  else ([], r1)
      | [] => ([], r1)
      end in
    match ip ++ fp with
    | [] => S754_nan
    | ds =>
        match digits_value 10 ds with
        | Z.pos m =>
            decimal_to_double neg m
              (read_exponent r2 - Z.of_nat (List.length fp))
        | _ => S754_zero neg
        end
    end.

(** Truthiness of a double: NaN and the zeros are falsy. *)
Definition double_truthy (d : double) : bool :=
  match d with
  | S754_nan | S754_zero _ => false
  | _ => true
  end.

(** A number member through [JSON.stringify] and back: a finite value is
    kept, a zero loses its sign, anything else becomes [null]. *)
Definition json_number (d : double) : cash_field :=
  match d with
  | S754_zero _ => CashNum dzero
  | S754_finite _ _ _ => CashNum d
  | _ => CashNull
  end.

(** The logged-in user, as kept by the page. *)
Record UserData := {
  ud_id : Z;
  ud_email : jsstring;
  ud_role : jsstring;
  ud_name : jsstring
}.

(** The state [handlePublish] reads. *)
Record publish_state := {
  capturedImage : option jsstring;
  st_providerName : jsstring;
  st_cashAmount : jsstring;
  st_user : option UserData
}.

(** The body [handlePublish] posts to [/api/records]; nothing is sent
    without a capture, a provider name and a user. *)
Definition handlePublish (st : publish_state) : option record_body :=
  match capturedImage st, st_user st with
  | Some img, Some u =>
      if str_truthy img && str_truthy (st_providerName st) then
        let cash := parseFloat (st_cashAmount st) in
        Some {| userId := ud_id u;
                employeeName := ud_name u;
                providerName := st_providerName st;
                cashAmount :=
                  json_number (if double_truthy cash then cash else dzero);
                imageBase64 := img |}
      else None
  | _, _ => None
  end.

End Client.

(* ================================================================== *)
(** * The specification's wording, for comparison with the code *)
(* ================================================================== *)

Module Spec.
Import Js Sqlite Server.

(** The integer written by a string of decimal digits. *)
Definition decimal (ds : jsstring) : Z :=
  fold_left (fun acc c => 10 * acc + (Z.of_N c - 48)) ds 0.

(** The count of a reply: every non-digit character is deleted and the
    remaining digit string is parsed as an integer; 0 when the reply is
    missing or holds no digit. *)
Definition count_of_reply (reply : option jsstring) : number :=
  match reply with
  | None => Int 0
  | Some s =>
      match filter isDigit s with
      | [] => Int 0
      | ds => Int (decimal ds)
      end
  end.

(** The same with the integer taken as a JavaScript number: the double
    nearest to it. *)
Definition nearest_count (reply : option jsstring) : number :=
  match reply with
  | None => Int 0
  | Some s =>
      match filter isDigit s with
      | [] => Int 0
      | ds => toNumber (decimal ds)
      end
  end.


(** A payload with a leading data-URI prefix ([data:...,]) removed; a
    payload without one is unchanged. *)
Definition strip_data_uri (payload : jsstring) : jsstring :=
  if Client.starts_with (lit "data:") payload && existsb (N.eqb 44) payload
  then tl (dropWhile (fun c => negb (c =? 44)%N) payload)
  else payload.





(** The sum of a list of integers. *)
Definition Zsum (l : list Z) : Z := fold_right Z.add 0 l.

(** The integer held by a number. *)
Definition int_value (x : number) : Z :=
  match x with Int z => z | _ => 0 end.



(** A body with another [cashAmount] member. *)
Definition with_cashAmount (c : cash_field) (b : record_body) : record_body :=
  {| userId := userId b;
     employeeName := employeeName b;
     providerName := providerName b;
     imageBase64 := imageBase64 b;
     cashAmount := c |}.

(** The submission was answered with the new record. *)
Definition created (r : response) : bool :=
  match r with Created _ _ => true | _ => false end.

(** The invariants of the table of records: identifiers are positive,
    grow along the table and stay within the sequence of the table, and no
    count is below 0. *)
Definition well_formed (db : database) : Prop :=
  0 <= records_seq db /\
  StronglySorted (fun a b => id a < id b) (records db) /\
  Forall (fun r => 0 < id r <= records_seq db) (records db) /\
  Forall (fun r => num_leb (Int 0) (bread_count r) = true) (records db).

(** The clocks of a sequence of requests never go back, from [t] on. *)
Fixpoint clock_monotone (t : Z) (reqs : list (environment * request))
  : Prop :=
  match reqs with
  | [] => True
  | (env, _) :: rest => t <= now env /\ clock_monotone (now env) rest
  end.



Definition day_entry (d : Z) (t : list day_row) : option day_row :=
  find (fun e => day_date e =? d) t.



End Spec.

(* ================================================================== *)
(** * server.ts: loading the module *)
(* ================================================================== *)

Module Startup.
Import Js Sqlite Server.

(** The statements that seed the administrator stand outside any [try]:
    a refused insertion is an uncaught exception, and the process ends
    before it listens. *)
Definition seed (db : database) : result database :=
  if existsb (fun u => jsstring_eqb (u_role u) (lit "admin")) (users db)
  then Done db
  else match insert_user db (lit "admin@goitom.com") (lit "admin123")
                         (lit "Administrator") (lit "admin") with
       | Done (db', _) => Done db'
       | Throws message => Throws message
       end.

End Startup.

(* ================================================================== *)
(** * src/App.tsx: accounts, history and charts *)
(* ================================================================== *)

Module Page.
Import Js Sqlite Server Client.

(** The fields of the forms ([email], [password], [name]). *)
Record form := {
  f_email : jsstring;
  f_password : jsstring;
  f_name : jsstring
}.

(** The request of [handleLogin]. *)
Definition handleLogin (f : form) : request :=
  PostLogin (f_email f) (f_password f).

(** [setError(...)] in [handleLogin], reached with an answer that is
    not [ok]. *)
Definition login_error (answer : response) : option string :=
  match answer with
  | Failed _ error =>
      Some (if String.eqb error "Invalid credentials"
            then "Credenciais inválidas"%string else error)
  | _ => None
  end.

(** The request of [handleSignup]; its body has no [role] member. *)
Definition handleSignup (f : form) : request :=
  PostSignup (f_email f) (f_password f) (f_name f) None.

(** [setError(...)] in [handleSignup]. *)
Definition signup_error (answer : response) : option string :=
  match answer with
  | Failed _ error =>
      Some (if String.eqb error "Email already exists"
            then "O email já existe"%string else error)
  | _ => None
  end.

(** The request of [handleUpdateProfile]: [password || undefined] leaves
    the member out of the body when the field is empty; nothing is sent
    without a user. *)
Definition handleUpdateProfile (user : option UserData) (f : form)
  : option request :=
  match user with
  | Some u =>
      Some (PutProfile (ud_id u) (f_email f) (f_name f)
              (if str_truthy (f_password f) then Some (f_password f)
               else None))
  | None => None
  end.

(** [setUser(data)] in [handleLogin] and [handleUpdateProfile], which is
    reached with an answer that is [ok] and carries a user; the user is
    kept otherwise. *)
Definition setUser (answer : response) (user : option UserData)
  : option UserData :=
  match answer with
  | User (Some i) =>
      Some {| ud_id := i_id i; ud_email := i_email i; ud_role := i_role i;
              ud_name := i_name i |}
  | _ => user
  end.

(** The request of [fetchRecords]; nothing is sent without a user. *)
Definition fetchRecords (user : option UserData) : option request :=
  match user with
  | Some u => Some (GetRecords (ud_id u) (ud_role u))
  | None => None
  end.

(** [records.slice(0, 3)]: the records of the dashboard. *)
Definition recent (records : list record) : list record := firstn 3 records.

(** [segs.join(sep)]. *)
Fixpoint join (sep : N) (segs : list jsstring) : jsstring :=
  match segs with
  | [] => []
  | [s] => s
  | s :: rest => s ++ sep :: join sep rest
  end.

(** [day.date.split('-').slice(1).join('/')]: the label under a bar of
    the chart. *)
Definition day_label (date : jsstring) : jsstring :=
  join 47 (skipn 1 (split 45 date)).

End Page.

(* ================================================================== *)
(** * Invariants and measures of the tables *)
(* ================================================================== *)

Module Tables.
Import Js Sqlite Server.

(** Identifiers are positive, grow along the table and stay within the
    sequence of the table; no two users share an email; every role is one
    of the two the table admits. *)
Definition users_ok (db : database) : Prop :=
  0 <= users_seq db /\
  StronglySorted (fun a b => u_id a < u_id b) (users db) /\
  Forall (fun u => 0 < u_id u <= users_seq db) (users db) /\
  NoDup (map u_email (users db)) /\
  Forall (fun u => valid_role (u_role u) = true) (users db).

(** Every record is filed under the identifier of a user. *)
Definition references_ok (db : database) : Prop :=
  Forall (fun r => In (user_id r) (map u_id (users db))) (records db).

(** The credentials of a user. *)
Definition credentials (u : user) (email password : jsstring) : bool :=
  jsstring_eqb (u_email u) email && jsstring_eqb (u_password u) password.

(** The password of a user after a profile update with the member
    [password]. *)
Definition new_password (password : option jsstring) (u : user) : jsstring :=
  match password with
  | Some p => if str_truthy p then p else u_password u
  | None => u_password u
  end.

(** The row of a user after the [UPDATE] of [update_user]. *)
Definition updated (uid : Z) (email name : jsstring)
    (password : option jsstring) (u : user) : user :=
  if u_id u =? uid then
    {| u_id := u_id u; u_email := email;
       u_password := match password with
                     | Some p => p
                     | None => u_password u
                     end;
       u_role := u_role u; u_name := name |}
  else u.



End Tables.

(* ================================================================== *)
(** * Concrete runs *)
(* ================================================================== *)

Module Scenario.
Import Js Sqlite Server Client.

(** The database after the first start and the sign-up of Ana. *)
Definition db_start : database :=
  fst (signup (lit "ana@goitom.com") (lit "secret") (lit "Ana") None
              (seed_admin empty_db)).

Definition ana : UserData :=
  {| ud_id := 2; ud_email := lit "ana@goitom.com";
     ud_role := lit "employee"; ud_name := lit "Ana" |}.

Definition jpeg : jsstring := lit "data:image/jpeg;base64,/9j/4AAQSkZJRg==".

(** The page with a capture, a provider and the text typed as amount. *)
Definition page (amount : string) : publish_state :=
  {| capturedImage := Some jpeg;
     st_providerName := lit "Rui";
     st_cashAmount := lit amount;
     st_user := Some ana |}.

(** A body as [handlePublish] builds it, and one without [cashAmount]. *)
Definition body (amount : string) : record_body :=
  match handlePublish (page amount) with
  | Some b => b
  | None => {| userId := 0; employeeName := []; providerName := [];
               imageBase64 := []; cashAmount := CashAbsent |}
  end.

Definition body_without_cash : record_body :=
  Spec.with_cashAmount CashAbsent (body "").

(** A configured server whose vision service answers [reply]. *)
Definition replying (reply : string) (t : Z) : environment :=
  {| GEMINI_API_KEY := Some (lit "key");
     generateContent := fun _ => Resolves (Some (lit reply));
     now := t |}.

Definition unconfigured (t : Z) : environment :=
  {| GEMINI_API_KEY := None;
     generateContent := fun _ => Resolves (Some (lit "3"));
     now := t |}.

(** 2024-01-01 22:30:00 and 23:30:00, UTC. *)
Definition t_2230 : Z := 1704148200.
Definition t_2330 : Z := 1704151800.











(** Two submissions of Ana on the same evening, an hour apart. *)
Definition db_evening (E : engine) : database :=
  fst (post_records E (replying "3" t_2330) (body "")
         (fst (post_records E (replying "2" t_2230) (body "1500") db_start))).


(** A capture sent as bare base64, with no data-URI prefix. *)
Definition bare_body : record_body :=
  {| userId := 2; employeeName := lit "Ana"; providerName := lit "Rui";
     imageBase64 := lit "/9j/4AAQSkZJRg=="; cashAmount := CashAbsent |}.

(** The row of Ana in [db_start]. *)
Definition ana_row : user :=
  {| u_id := 2; u_email := lit "ana@goitom.com"; u_password := lit "secret";
     u_role := lit "employee"; u_name := lit "Ana" |}.

(** The sign-up form of a second employee, and one that takes the
    built-in email of the administrator. *)
Definition rui_form : Page.form :=
  {| Page.f_email := lit "rui@goitom.com"; Page.f_password := lit "farinha";
     Page.f_name := lit "Rui" |}.

Definition taker_form : Page.form :=
  {| Page.f_email := lit "admin@goitom.com"; Page.f_password := lit "x";
     Page.f_name := lit "Eva" |}.

(** The profile form of Ana with a new email and name, and no password. *)
Definition ana_profile : Page.form :=
  {| Page.f_email := lit "ana.silva@goitom.com"; Page.f_password := [];
     Page.f_name := lit "Ana Silva" |}.

(** Ana's row and page after that update. *)
Definition ana_renamed : user :=
  {| u_id := 2; u_email := lit "ana.silva@goitom.com";
     u_password := lit "secret"; u_role := lit "employee";
     u_name := lit "Ana Silva" |}.

Definition ana_info : user_info :=
  {| i_id := 2; i_email := lit "ana.silva@goitom.com";
     i_name := lit "Ana Silva"; i_role := lit "employee" |}.

(** The database after the sign-up of Rui. *)
Definition db_rui (E : engine) : database :=
  fst (handle E (unconfigured t_2230) (Page.handleSignup rui_form) db_start).

Definition rui_info : user_info :=
  {| i_id := 3; i_email := lit "rui@goitom.com"; i_name := lit "Rui";
     i_role := lit "employee" |}.

Definition rui : UserData :=
  {| ud_id := 3; ud_email := lit "rui@goitom.com";
     ud_role := lit "employee"; ud_name := lit "Rui" |}.

End Scenario.

(* ================================================================== *)
(** * Properties *)
(* ================================================================== *)

Import Js Sqlite Server Client.

(** ** Numbers *)

Lemma shr_1_nonneg mrs : 0 <= shr_m mrs -> 0 <= shr_m (shr_1 mrs).
Proof.
  destruct mrs as [m r s]; simpl. destruct m as [|p|p]; simpl; try lia.
  - destruct p; simpl; lia.
Qed.

Lemma iter_pos_nonneg n mrs :
  0 <= shr_m mrs -> 0 <= shr_m (iter_pos shr_1 n mrs).
Proof.
  revert mrs. induction n; intros mrs H; simpl; auto using shr_1_nonneg.
Qed.

Lemma shr_nonneg mrs e n : 0 <= shr_m mrs -> 0 <= shr_m (fst (shr mrs e n)).
Proof.
  intros H. unfold shr. destruct n; simpl; auto using iter_pos_nonneg.
Qed.

Lemma shr_fexp_nonneg p x m e l :
  0 <= m -> 0 <= shr_m (fst (shr_fexp p x m e l)).
Proof.
  intros H. unfold shr_fexp. apply shr_nonneg. destruct l as [|[]]; simpl; auto.
Qed.

Lemma round_nearest_even_nonneg m l : 0 <= m -> 0 <= round_nearest_even m l.
Proof.
  intros H. unfold round_nearest_even. destruct l as [|[]]; try lia.
  destruct (Z.even m); lia.
Qed.

Lemma binary_round_aux_nonneg p x m e l :
  0 <= m -> nonneg_double (binary_round_aux p x false m e l).
Proof.
  intros H. unfold binary_round_aux.
  pose proof (shr_fexp_nonneg p x m e l H) as H1.
  destruct (shr_fexp p x m e l) as [mrs' e']. simpl in H1.
  pose proof (shr_fexp_nonneg p x _ e' loc_Exact
                (round_nearest_even_nonneg _ (loc_of_shr_record mrs') H1))
    as H2.
  destruct (shr_fexp p x _ e' loc_Exact) as [mrs'' e'']. simpl in H2.
  destruct (shr_m mrs''); simpl; try lia; auto.
  destruct (e'' <=? x - p); simpl; auto.
Qed.

Lemma Z2double_nonneg z : 0 <= z -> nonneg_double (Z2double z).
Proof.
  intros H. unfold Z2double, binary_normalize.
  destruct z as [|q|q]; simpl; try lia; auto.
  unfold binary_round. destruct (shl_align _ _ _) as [mz ez].
  apply binary_round_aux_nonneg. lia.
Qed.

Lemma toNumber_nonneg z : 0 <= z -> num_leb (Int 0) (toNumber z) = true.
Proof.
  intros H. unfold toNumber. pose proof (Z2double_nonneg z H) as N.
  destruct (Z2double z) as [s|s|  |s m e];
    cbn [nonneg_double double_trunc num_leb] in *; try tauto; subst; auto.
  apply Z.leb_le. destruct (Z.leb_spec 0 e).
  - apply Z.mul_nonneg_nonneg; [lia | apply Z.pow_nonneg; lia].
  - apply Z.div_pos; [lia|]. apply Z.pow_pos_nonneg; lia.
Qed.

(** Integers below [2 ^ 53] are represented exactly. *)
Lemma digits2_pos_iter_xO k p :
  digits2_pos (Pos.iter xO p k) = (digits2_pos p + k)%positive.
Proof.
  induction k using Pos.peano_ind.
  - simpl. lia.
  - rewrite Pos.iter_succ. simpl. rewrite IHk. lia.
Qed.

Lemma iter_xO_value k p : Z.pos (Pos.iter xO p k) = Z.pos p * 2 ^ Z.pos k.
Proof.
  induction k using Pos.peano_ind.
  - simpl. lia.
  - rewrite Pos.iter_succ.
    rewrite Pos2Z.inj_xO, IHk, Pos2Z.inj_succ, Z.pow_succ_r by lia. lia.
Qed.

Lemma digits2_pos_bound p :
  2 ^ (Z.pos (digits2_pos p) - 1) <= Z.pos p < 2 ^ Z.pos (digits2_pos p).
Proof.
  induction p as [p IH|p IH|]; simpl digits2_pos.
  - rewrite Pos2Z.inj_succ.
    replace (Z.succ (Z.pos (digits2_pos p)) - 1)
      with (Z.succ (Z.pos (digits2_pos p) - 1)) by lia.
    rewrite !Z.pow_succ_r by lia. lia.
  - rewrite Pos2Z.inj_succ.
    replace (Z.succ (Z.pos (digits2_pos p)) - 1)
      with (Z.succ (Z.pos (digits2_pos p) - 1)) by lia.
    rewrite !Z.pow_succ_r by lia. lia.
  - simpl. lia.
Qed.

Lemma digits2_pos_le p n :
  0 <= n -> Z.pos p < 2 ^ n -> Z.pos (digits2_pos p) <= n.
Proof.
  intros Hn H. destruct (digits2_pos_bound p) as [L _].
  destruct (Z_le_gt_dec (Z.pos (digits2_pos p)) n) as [|G]; auto.
  exfalso.
  assert (2 ^ n <= 2 ^ (Z.pos (digits2_pos p) - 1))
    by (apply Z.pow_le_mono_r; lia).
  lia.
Qed.

Lemma shr_fexp_id m e :
  Z.pos (digits2_pos m) = 53 -> -1074 <= e ->
  shr_fexp prec emax (Z.pos m) e loc_Exact =
  ({| shr_m := Z.pos m; shr_r := false; shr_s := false |}, e).
Proof.
  intros D He. unfold shr_fexp.
  assert (fexp prec emax (Zdigits2 (Z.pos m) + e) - e = 0) as ->.
  { unfold Zdigits2. rewrite D. unfold fexp, emin, prec, emax. lia. }
  reflexivity.
Qed.

Lemma binary_round_aux_canonical m e :
  Z.pos (digits2_pos m) = 53 -> -52 <= e <= 0 ->
  binary_round_aux prec emax false (Z.pos m) e loc_Exact =
  S754_finite false m e.
Proof.
  intros D He. unfold binary_round_aux.
  rewrite (shr_fexp_id m e D) by lia.
  cbn [shr_m loc_of_shr_record round_nearest_even].
  rewrite (shr_fexp_id m e D) by lia.
  cbn [shr_m].
  replace (e <=? emax - prec) with true; [reflexivity|].
  symmetry; apply Z.leb_le; unfold emax, prec; lia.
Qed.

Lemma Z2double_exact p : Z.pos p < 2 ^ 53 ->
  exists m e,
    Z2double (Z.pos p) = S754_finite false m e /\
    -52 <= e <= 0 /\ Z.pos m = Z.pos p * 2 ^ (- e).
Proof.
  intros H.
  unfold Z2double, binary_normalize, binary_round, shl_align, fexp, emin,
    prec, emax.
  pose proof (digits2_pos_le p 53 ltac:(lia) H) as D.
  set (d := Z.pos (digits2_pos p)) in *.
  assert (1 <= d) by (unfold d; lia).
  replace (Z.max (d + 0 - 53) (3 - 1024 - 53) - 0) with (d - 53) by lia.
  replace (Z.max (d + 0 - 53) (3 - 1024 - 53)) with (d - 53) by lia.
  destruct (d - 53) as [|q|q] eqn:E; try lia.
  - exists p, 0. split; [|split; [lia| simpl; lia]].
    apply binary_round_aux_canonical; unfold d in *; lia.
  - exists (Pos.iter xO p q), (Z.neg q). split; [|split; [lia|]].
    + apply binary_round_aux_canonical; [|lia].
      rewrite digits2_pos_iter_xO. unfold d in *. lia.
    + rewrite iter_xO_value. reflexivity.
Qed.

Lemma toNumber_exact z : 0 <= z < 2 ^ 53 -> toNumber z = Int z.
Proof.
  intros [L U]. destruct z as [|p|p]; try lia.
  - reflexivity.
  - unfold toNumber. destruct (Z2double_exact p U) as (m & e & -> & He & V).
    unfold double_trunc.
    destruct (Z.leb_spec 0 e).
    + assert (e = 0) by lia. subst e. simpl in V. f_equal. simpl. lia.
    + f_equal. rewrite V. apply Z.div_mul. apply Z.pow_nonzero; lia.
Qed.

(** ** The count of a reply *)

Lemma isDigit_bounds c : isDigit c = true <-> (48 <= c <= 57)%N.
Proof.
  unfold isDigit. rewrite andb_true_iff, !N.leb_le. tauto.
Qed.

Lemma whitespace_not_digit c : isWhiteSpace c = true -> isDigit c = false.
Proof.
  unfold isWhiteSpace.
  rewrite !orb_true_iff, andb_true_iff, !N.eqb_eq, !N.leb_le.
  intros H. apply not_true_is_false. rewrite isDigit_bounds. lia.
Qed.

Lemma filter_digits_dropWhile s :
  filter isDigit (dropWhile isWhiteSpace s) = filter isDigit s.
Proof.
  induction s as [|c s IH]; simpl; auto.
  destruct (isWhiteSpace c) eqn:W; auto.
  now rewrite (whitespace_not_digit c W).
Qed.

Lemma filter_rev {A} (p : A -> bool) l : filter p (rev l) = rev (filter p l).
Proof.
  induction l as [|x l IH]; simpl; auto.
  rewrite filter_app, IH. simpl. destruct (p x); simpl; auto using app_nil_r.
Qed.

Lemma filter_digits_trim s : filter isDigit (trim s) = filter isDigit s.
Proof.
  unfold trim, trimEnd, trimStart.
  rewrite filter_rev, filter_digits_dropWhile, filter_rev, rev_involutive.
  apply filter_digits_dropWhile.
Qed.

Lemma digit_value_decimal c :
  isDigit c = true -> digit_value 10 c = Some (Z.of_N c - 48).
Proof.
  intros D. unfold digit_value. rewrite D.
  apply isDigit_bounds in D.
  destruct (Z.ltb_spec (Z.of_N c - 48) 10); auto; lia.
Qed.

Lemma takeWhile_all {A} (p : A -> bool) l :
  forallb p l = true -> takeWhile p l = l.
Proof.
  induction l as [|x l IH]; simpl; auto.
  rewrite andb_true_iff. intros [-> H]. now rewrite IH.
Qed.

Lemma forallb_filter_same {A} (p : A -> bool) l : forallb p (filter p l) = true.
Proof.
  induction l as [|x l IH]; simpl; auto.
  destruct (p x) eqn:P; simpl; auto. now rewrite P.
Qed.

Lemma digits_value_from acc ds :
  forallb isDigit ds = true ->
  fold_left (fun acc c => acc * 10 + match digit_value 10 c with
                                     | Some d => d | None => 0 end) ds acc =
  fold_left (fun acc c => 10 * acc + (Z.of_N c - 48)) ds acc.
Proof.
  revert acc. induction ds as [|c ds IH]; cbn [fold_left forallb]; auto.
  intros acc DH. apply andb_true_iff in DH as [D H].
  rewrite (digit_value_decimal c D), IH by assumption. f_equal. lia.
Qed.

Lemma digits_value_decimal ds :
  forallb isDigit ds = true -> digits_value 10 ds = Spec.decimal ds.
Proof. apply digits_value_from. Qed.

Lemma decimal_nonneg_from acc ds :
  forallb isDigit ds = true -> 0 <= acc ->
  0 <= fold_left (fun acc c => 10 * acc + (Z.of_N c - 48)) ds acc.
Proof.
  revert acc. induction ds as [|c ds IH]; cbn [fold_left forallb]; auto.
  intros acc DH A. apply andb_true_iff in DH as [D H].
  apply IH; auto. apply isDigit_bounds in D. lia.
Qed.

Lemma decimal_nonneg ds : forallb isDigit ds = true -> 0 <= Spec.decimal ds.
Proof. intros H. apply decimal_nonneg_from; auto. lia. Qed.

(** [parseInt] of a non-empty string of decimal digits. *)
Lemma parseInt_digits c ds :
  forallb isDigit (c :: ds) = true ->
  parseInt (c :: ds) = toNumber (Spec.decimal (c :: ds)).
Proof.
  intros H. pose proof H as H0. simpl in H.
  apply andb_true_iff in H as [Dc Dds].
  unfold parseInt, trimStart. simpl dropWhile.
  destruct (isWhiteSpace c) eqn:W.
  { rewrite (whitespace_not_digit c W) in Dc. discriminate. }
  pose proof (proj1 (isDigit_bounds c) Dc) as Bc.
  unfold read_sign.
  destruct (N.eqb_spec c 45); [lia|]. destruct (N.eqb_spec c 43); [lia|].
  assert (read_radix (c :: ds) = (10, c :: ds)) as ->.
  { unfold read_radix. destruct ds as [|b t]; auto.
    simpl in Dds. apply andb_true_iff in Dds as [Db _].
    apply isDigit_bounds in Db.
    destruct (N.eqb_spec b 120); [lia|]. destruct (N.eqb_spec b 88); [lia|].
    now rewrite andb_false_r. }
  rewrite takeWhile_all.
  - rewrite digits_value_decimal by exact H0. reflexivity.
  - simpl. unfold is_radix_digit at 1.
    rewrite (digit_value_decimal c Dc). simpl.
    clear -Dds. induction ds as [|b t IH]; simpl in *; auto.
    apply andb_true_iff in Dds as [Db Dt].
    unfold is_radix_digit at 1. rewrite (digit_value_decimal b Db). simpl. auto.
Qed.

Lemma or_zero_toNumber z : 0 <= z -> or_zero (toNumber z) = toNumber z.
Proof.
  intros H. pose proof (toNumber_nonneg z H) as L.
  unfold or_zero.
  destruct (toNumber z) as [|v|s]; simpl in *; try discriminate; auto.
  destruct (Z.eqb_spec v 0); simpl; subst; auto.
Qed.

Lemma breadCount_spec reply : breadCount reply = Spec.nearest_count reply.
Proof.
  unfold breadCount, Spec.nearest_count, countText, replace_non_digits.
  destruct reply as [s|]; [|reflexivity].
  rewrite <- (filter_digits_trim s).
  destruct (trim s) as [|c t] eqn:T; [reflexivity|].
  cbn [str_truthy].
  destruct (filter isDigit (c :: t)) as [|d ds] eqn:F; [reflexivity|].
  assert (forallb isDigit (d :: ds) = true) as A
    by (rewrite <- F; apply forallb_filter_same).
  rewrite parseInt_digits by exact A.
  apply or_zero_toNumber, decimal_nonneg, A.
Qed.

Lemma nearest_count_nonneg reply :
  num_leb (Int 0) (Spec.nearest_count reply) = true.
Proof.
  unfold Spec.nearest_count. destruct reply as [s|]; auto.
  destruct (filter isDigit s) as [|d ds] eqn:F; auto.
  apply toNumber_nonneg, decimal_nonneg. rewrite <- F.
  apply forallb_filter_same.
Qed.

(** A string of [n] digits is below [10 ^ n]. *)
Lemma decimal_bound_from acc ds :
  forallb isDigit ds = true -> 0 <= acc ->
  fold_left (fun acc c => 10 * acc + (Z.of_N c - 48)) ds acc <
  (acc + 1) * 10 ^ Z.of_nat (List.length ds).
Proof.
  revert acc. induction ds as [|c ds IH]; intros acc DH A.
  - cbn [fold_left List.length]. change (10 ^ Z.of_nat 0) with 1. lia.
  - cbn [fold_left forallb] in *. apply andb_true_iff in DH as [D H].
    apply isDigit_bounds in D.
    eapply Z.lt_le_trans; [apply IH; [exact H|lia]|].
    replace (Z.of_nat (List.length (c :: ds)))
      with (Z.succ (Z.of_nat (List.length ds)))
      by (cbn [List.length]; lia).
    rewrite Z.pow_succ_r by lia.
    assert (0 < 10 ^ Z.of_nat (List.length ds))
      by (apply Z.pow_pos_nonneg; lia).
    nia.
Qed.

Lemma decimal_bound ds :
  forallb isDigit ds = true ->
  Spec.decimal ds < 10 ^ Z.of_nat (List.length ds).
Proof.
  intros H. pose proof (decimal_bound_from 0 ds H ltac:(lia)) as B.
  unfold Spec.decimal. lia.
Qed.

(** C2, as amended.  For every reply of the vision service,
    [breadCount] is the JavaScript number nearest to the integer written
    by the digits of the reply ([Spec.nearest_count]); it is 0 for a
    missing or empty reply and for one without a digit; it is never below
    0; and it is that integer itself ([Spec.count_of_reply]) when the
    integer is below [2 ^ 53], so for every reply with at most 15
    digits. *)
Theorem breadCount_is_parsed_digits :
  forall reply : option jsstring,
    breadCount reply = Spec.nearest_count reply /\
    num_leb (Int 0) (breadCount reply) = true /\
    (forall s, reply = Some s -> filter isDigit s = [] ->
               breadCount reply = Int 0) /\
    (reply = None -> breadCount reply = Int 0) /\
    (forall s, reply = Some s ->
       Spec.decimal (filter isDigit s) < 2 ^ 53 ->
       breadCount reply = Spec.count_of_reply reply) /\
    (forall s, reply = Some s ->
       (List.length (filter isDigit s) <= 15)%nat ->
       breadCount reply = Spec.count_of_reply reply).
Proof.
  intros reply. rewrite breadCount_spec. split; [reflexivity|].
  split; [apply nearest_count_nonneg|].
  assert (Exact : forall s, reply = Some s ->
                    Spec.decimal (filter isDigit s) < 2 ^ 53 ->
                    Spec.nearest_count reply = Spec.count_of_reply reply).
  { intros s -> B. cbn [Spec.nearest_count Spec.count_of_reply].
    destruct (filter isDigit s) as [|d ds] eqn:F; [reflexivity|].
    apply toNumber_exact. split; [|exact B].
    apply decimal_nonneg. rewrite <- F. apply forallb_filter_same. }
  split; [|split; [|split]].
  - intros s -> E. simpl. now rewrite E.
  - intros ->. reflexivity.
  - exact Exact.
  - intros s R L. apply (Exact s R).
    eapply Z.lt_le_trans;
      [apply decimal_bound, forallb_filter_same|].
    transitivity (10 ^ 15); [|vm_compute; discriminate].
    apply Z.pow_le_mono_r; lia.
Qed.

(** ** ORDER BY and the listing of records *)

Lemma jsstring_eqb_eq a b : jsstring_eqb a b = true <-> a = b.
Proof.
  unfold jsstring_eqb.
  destruct (list_eq_dec N.eq_dec a b); split; auto; discriminate.
Qed.

Lemma jsstring_eqb_refl a : jsstring_eqb a a = true.
Proof. now apply jsstring_eqb_eq. Qed.

Section OrderByFacts.
Context {A : Type}.
Variable before : A -> A -> bool.

Lemma insert_perm x l : Permutation (insert before x l) (x :: l).
Proof.
  induction l as [|y t IH]; simpl; auto.
  destruct (before x y); auto.
  rewrite IH. apply perm_swap.
Qed.

Lemma sort_perm l : Permutation (sort before l) l.
Proof.
  induction l as [|x t IH]; simpl; auto.
  rewrite insert_perm. now constructor.
Qed.

Lemma sort_In x l : In x (sort before l) <-> In x l.
Proof.
  split; apply Permutation_in; [|symmetry]; apply sort_perm.
Qed.

(** Rows that may pairwise come before each other keep their order. *)
Lemma insert_stable (p : A -> bool) x l :
  (forall y, In y l -> p x = true -> p y = true -> before x y = true) ->
  filter p (insert before x l) = filter p (x :: l).
Proof.
  induction l as [|y t IH]; intros H; cbn [insert]; auto.
  destruct (before x y) eqn:B; auto.
  cbn [filter]. rewrite IH by (intros; apply H; simpl; auto).
  cbn [filter]. destruct (p x) eqn:Px; auto.
  destruct (p y) eqn:Py; auto.
  rewrite H in B; simpl; auto. discriminate.
Qed.

Lemma sort_stable (p : A -> bool) l :
  (forall x y, In x l -> In y l -> p x = true -> p y = true ->
               before x y = true) ->
  filter p (sort before l) = filter p l.
Proof.
  induction l as [|x t IH]; intros H; simpl; auto.
  rewrite insert_stable.
  - simpl. rewrite IH; [reflexivity|].
    intros a b Ha Hb. apply H; simpl; auto.
  - intros y Hy. apply (proj1 (sort_In _ _)) in Hy. apply H; simpl; auto.
Qed.

Hypothesis before_total : forall x y, before x y = true \/ before y x = true.
Hypothesis before_trans :
  forall x y z, before x y = true -> before y z = true -> before x z = true.

Lemma insert_sorted x l :
  StronglySorted (fun a b => before a b = true) l ->
  StronglySorted (fun a b => before a b = true) (insert before x l).
Proof.
  induction 1 as [|y t St IH Fy]; simpl.
  - repeat constructor.
  - destruct (before x y) eqn:B.
    + constructor; [now constructor|].
      constructor; auto.
      rewrite Forall_forall in *. eauto.
    + constructor; auto.
      rewrite Forall_forall in *. intros z Hz.
      apply (Permutation_in _ (insert_perm x t)) in Hz.
      destruct Hz as [<-|Hz]; auto.
      destruct (before_total x y) as [C|C]; congruence.
Qed.

Lemma sort_sorted l :
  StronglySorted (fun a b => before a b = true) (sort before l).
Proof.
  induction l; simpl; [constructor | now apply insert_sorted].
Qed.

End OrderByFacts.

Lemma order_by_desc_Z_sorted {A} (key : A -> Z) l :
  StronglySorted (fun a b => key b <= key a) (order_by_desc Z.leb key l).
Proof.
  unfold order_by_desc.
  eapply StronglySorted_ind with
    (P := StronglySorted (fun a b => key b <= key a)).
  - constructor.
  - intros a t _ IH F. constructor; auto.
    eapply Forall_impl; [|exact F]. intros b. apply Z.leb_le.
  - apply sort_sorted.
    + intros x y. rewrite !Z.leb_le. lia.
    + intros x y z. rewrite !Z.leb_le. lia.
Qed.

(** GET /api/records *)
Lemma by_timestamp_desc_stable t l :
  filter (fun r => timestamp r =? t) (by_timestamp_desc l) =
  filter (fun r => timestamp r =? t) l.
Proof.
  apply sort_stable. intros x y _ _ Hx Hy.
  apply Z.eqb_eq in Hx, Hy. apply Z.leb_le. lia.
Qed.

Lemma get_records_admin uid db :
  get_records uid (lit "admin") db = by_timestamp_desc (records db).
Proof. unfold get_records. now rewrite jsstring_eqb_refl. Qed.

Lemma get_records_employee uid role db :
  role <> lit "admin" ->
  get_records uid role db =
  by_timestamp_desc (filter (fun r => user_id r =? uid) (records db)).
Proof.
  intros NR. unfold get_records.
  destruct (jsstring_eqb role (lit "admin")) eqn:R; auto.
  apply jsstring_eqb_eq in R. contradiction.
Qed.

(** C6.  For a caller who is not an administrator [get_records] returns
    exactly the records whose [user_id] is the caller's, and for an
    administrator every record, a superset; both lists are ordered by
    [timestamp] descending, and records with the same timestamp keep the
    order of the table. *)
Theorem get_records_listing :
  forall (uid : Z) (role : jsstring) (db : database),
    role <> lit "admin" ->
    let own := filter (fun r => user_id r =? uid) (records db) in
    let listForUser := get_records uid role db in
    let listAll := get_records uid (lit "admin") db in
    Permutation listForUser own /\
    (forall r, In r listForUser <-> In r (records db) /\ user_id r = uid) /\
    Permutation listAll (records db) /\
    incl listForUser listAll /\
    StronglySorted (fun a b => timestamp b <= timestamp a) listForUser /\
    StronglySorted (fun a b => timestamp b <= timestamp a) listAll /\
    (forall t, filter (fun r => timestamp r =? t) listForUser =
               filter (fun r => timestamp r =? t) own) /\
    (forall t, filter (fun r => timestamp r =? t) listAll =
               filter (fun r => timestamp r =? t) (records db)).
Proof.
  intros uid role db NR own listForUser listAll.
  unfold listForUser, listAll.
  rewrite get_records_admin, (get_records_employee uid role db NR).
  fold own. unfold by_timestamp_desc, order_by_desc.
  assert (In_own : forall r, In r own <-> In r (records db) /\ user_id r = uid).
  { intros r. unfold own. rewrite filter_In, Z.eqb_eq. tauto. }
  split; [apply sort_perm|].
  split; [intros r; rewrite sort_In; apply In_own|].
  split; [apply sort_perm|].
  split; [intros r; rewrite !sort_In, In_own; tauto|].
  split; [apply (order_by_desc_Z_sorted timestamp)|].
  split; [apply (order_by_desc_Z_sorted timestamp)|].
  split; intros t; apply by_timestamp_desc_stable.
Qed.

(** ** GROUP BY *)



Lemma strongly_sorted_app {A} (R : A -> A -> Prop) l1 l2 :
  StronglySorted R (l1 ++ l2) ->
  forall a b, In a l1 -> In b l2 -> R a b.
Proof.
  induction l1 as [|x t IH]; simpl; intros S a b Ha Hb; [contradiction|].
  apply StronglySorted_inv in S as [S F].
  destruct Ha as [<-|Ha]; eauto.
  rewrite Forall_forall in F. apply F, in_or_app. now right.
Qed.

Lemma strongly_sorted_firstn {A} (R : A -> A -> Prop) n l :
  StronglySorted R l -> StronglySorted R (firstn n l).
Proof.
  revert l. induction n as [|n IH]; intros [|x t] S; simpl; try constructor.
  - apply IH. now apply StronglySorted_inv in S.
  - apply StronglySorted_inv in S as [_ F].
    rewrite Forall_forall in *. intros y Hy. apply F.
    rewrite <- (firstn_skipn n t). apply in_or_app. now left.
Qed.


Section GroupByFacts.
Context {A K : Type}.
Variable eqb : K -> K -> bool.
Variable key : A -> K.
Hypothesis eqb_eq : forall x y, eqb x y = true <-> x = y.








End GroupByFacts.

(** ** sum() and the order of totals *)





(** ** Sums of whole numbers *)




Lemma iter_xO_inj p q k :
  Z.pos q = Z.pos p * 2 ^ Z.pos k -> q = Pos.iter xO p k.
Proof.
  intros H. rewrite <- iter_xO_value in H. now injection H.
Qed.










Lemma Zsum_cons z zs : Spec.Zsum (z :: zs) = z + Spec.Zsum zs.
Proof. reflexivity. Qed.






(** ** sum() over INTEGER values *)


Lemma Zsum_app l l' : Spec.Zsum (l ++ l') = Spec.Zsum l + Spec.Zsum l'.
Proof.
  induction l as [|z l IH]; [reflexivity|].
  cbn [app]. rewrite !Zsum_cons, IH. lia.
Qed.





Lemma int_of_value x : int_of x = Spec.int_value x.
Proof. reflexivity. Qed.



Lemma sum_integer_nil E : sum_integer E [] = Summed NaN.
Proof. reflexivity. Qed.





(** ** The rollups of GET /api/stats *)




Lemma firstn_In {A} n (l : list A) x : In x (firstn n l) -> In x l.
Proof.
  intros H. rewrite <- (firstn_skipn n l). apply in_or_app. now left.
Qed.



Section Rollups.
Variable E : engine.
Variable rows : list record.










End Rollups.


(** ** SUM(cash_amount) *)




Lemma explicit_sum_real E l :
  sum_real E l =
  match non_null l with
  | [] => None
  | vs => if is_nan (real_sum E vs) then None else Some (real_sum E vs)
  end.
Proof. reflexivity. Qed.




Lemma strongly_sorted_map {A B} (f : A -> B) (R : B -> B -> Prop) l :
  StronglySorted (fun a b => R (f a) (f b)) l -> StronglySorted R (map f l).
Proof.
  induction 1 as [|a l _ IH F]; cbn [map]; constructor; auto.
  rewrite Forall_map. exact F.
Qed.



(** ** POST /api/records *)

(** The record [post_records] inserts. *)
Lemma post_records_cases E env b db :
  (key_missing env = true /\
   post_records E env b db =
   (db, Failed 500 "Gemini API key not configured")) \/
  (key_missing env = false /\
   generateContent env (vision_request b) = Rejects /\
   post_records E env b db = (db, Failed 500 "Failed to process image")) \/
  (key_missing env = false /\
   (exists reply, generateContent env (vision_request b) = Resolves reply) /\
   foreign_key_violation E db (userId b) = true /\
   post_records E env b db = (db, Failed 500 "Failed to process image")) \/
  (key_missing env = false /\
   foreign_key_violation E db (userId b) = false /\
   exists reply,
     generateContent env (vision_request b) = Resolves reply /\
     post_records E env b db =
     ({| users := users db;
         records := records db ++
                    [{| id := records_seq db + 1;
                        user_id := userId b;
                        employee_name := employeeName b;
                        provider_name := providerName b;
                        bread_count := breadCount reply;
                        cash_amount := bound_cash (cashAmount b);
                        image_url := imageBase64 b;
                        timestamp := now env |}];
         users_seq := users_seq db;
         records_seq := records_seq db + 1 |},
      Created (records_seq db + 1) (breadCount reply))).
Proof.
  unfold post_records, insert_record.
  destruct (key_missing env); [left; auto|right].
  destruct (generateContent env (vision_request b)) as [|reply];
    [left; auto|right].
  destruct (foreign_key_violation E db (userId b)); [left|right]; eauto 6.
Qed.


(** C3.  Every failure of [post_records] is a status 500 with one of two
    messages and leaves the database exactly as it was: a missing key is
    reported as such, a rejected call and a refused insertion as a
    processing failure.  There is no third kind of answer. *)
Theorem post_records_failed :
  forall (E : engine) (env : environment) (b : record_body) (db : database),
    (forall db' status message,
       post_records E env b db = (db', Failed status message) ->
       db' = db /\ status = 500 /\
       (message = "Gemini API key not configured"%string \/
        message = "Failed to process image"%string)) /\
    (key_missing env = true ->
     post_records E env b db =
     (db, Failed 500 "Gemini API key not configured")) /\
    (key_missing env = false ->
     generateContent env (vision_request b) = Rejects ->
     post_records E env b db = (db, Failed 500 "Failed to process image")) /\
    (forall reply,
       key_missing env = false ->
       generateContent env (vision_request b) = Resolves reply ->
       foreign_key_violation E db (userId b) = true ->
       post_records E env b db = (db, Failed 500 "Failed to process image")) /\
    (Spec.created (snd (post_records E env b db)) = true \/
     exists message, snd (post_records E env b db) = Failed 500 message).
Proof.
  intros E env b db.
  destruct (post_records_cases E env b db)
    as [[K C]|[(K & G & C)|[(K & [reply G] & F & C)|(K & F & reply & G & C)]]];
    rewrite C; cbn [snd Spec.created];
    (split; [intros ? ? ? H; try discriminate; injection H as <- <- <-; auto|]);
    (split; [congruence|]); (split; [congruence|]);
    (split; [intros; congruence|]); eauto.
Qed.

(** X3.  Submitting the same capture again creates a second record, with
    the next identifier and the same count. *)
Theorem resubmission_creates_second_record :
  forall (E : engine) (env : environment) (b : record_body)
         (db db1 : database) (rid : Z) (count : number),
    post_records E env b db = (db1, Created rid count) ->
    exists db2 r1 r2,
      post_records E env b db1 = (db2, Created (rid + 1) count) /\
      records db2 = records db ++ [r1; r2] /\
      id r1 = rid /\ id r2 = rid + 1 /\
      bread_count r1 = count /\ bread_count r2 = count.
Proof.
  intros E env b db db1 rid count H.
  destruct (post_records_cases E env b db)
    as [[_ C]|[(_ & _ & C)|[(_ & _ & _ & C)|(K & F & reply & G & C)]]];
    rewrite C in H; try discriminate.
  injection H as <- <- <-.
  set (db1 := {| users := users db; records := _ |}).
  destruct (post_records_cases E env b db1)
    as [[K' _]|[(_ & G' & _)|[(_ & _ & F' & _)|(_ & _ & reply' & G' & C')]]];
    try congruence.
  - unfold foreign_key_violation in *. cbn [users db1] in F'. congruence.
  - rewrite G in G'. injection G' as <-. rewrite C'.
    do 3 eexists. split; [reflexivity|]. cbn [records db1 id bread_count].
    rewrite <- app_assoc. cbn [app]. repeat split.
Qed.

(** ** The table of records over time, and the payload sent *)

(** Starting the server writes no record. *)
Lemma seed_admin_keeps_records db : records (seed_admin db) = records db.
Proof.
  unfold seed_admin. destruct (existsb _ (users db)); auto.
  unfold insert_user. destruct (existsb _ (users db)); auto.
Qed.

Lemma post_records_appends E env b db :
  exists added, records (fst (post_records E env b db)) = records db ++ added.
Proof.
  destruct (post_records_cases E env b db)
    as [[_ C]|[(_ & _ & C)|[(_ & _ & _ & C)|(_ & _ & reply & _ & C)]]];
    rewrite C; cbn [fst records]; eauto; exists []; now rewrite app_nil_r.
Qed.

(** Every route but [POST /api/records] leaves the table as it is. *)
Lemma handle_keeps_records E env req db :
  (forall b, req <> PostRecords b) ->
  records (fst (handle E env req db)) = records db.
Proof.
  intros NP. destruct req as [| | |b| | | | |]; cbn [handle fst]; auto.
  - unfold signup, insert_user.
    destruct (existsb _ (users db)); auto.
    destruct (negb (valid_role _)); auto.
  - now elim (NP b).
  - unfold put_profile, update_user.
    destruct (_ && _); auto.
  - unfold delete_user. destruct (_ && _); auto.
Qed.

Lemma handle_appends E env req db :
  exists added, records (fst (handle E env req db)) = records db ++ added.
Proof.
  destruct req as [| | |b| | | | |];
    try (exists []; rewrite app_nil_r; apply handle_keeps_records;
         discriminate).
  apply post_records_appends.
Qed.

Lemma serve_appends E reqs db :
  exists added, records (serve E reqs db) = records db ++ added.
Proof.
  revert db. induction reqs as [|[env req] rest IH]; intros db; cbn [serve].
  - exists []. now rewrite app_nil_r.
  - destruct (IH (fst (handle E env req db))) as [a2 H2].
    destruct (handle_appends E env req db) as [a1 H1].
    exists (a1 ++ a2). now rewrite H2, H1, app_assoc.
Qed.

(** C7.  Over every sequence of requests to the routes of the server,
    the table of records only grows at its end: each record present
    before is present afterwards at the same place with the same fields.
    A profile update, the deletion of a user, every route other than
    the submission and the start of the server leave the table as it
    is. *)
Theorem records_immutable :
  forall (E : engine) (reqs : list (environment * request)) (db : database),
    (exists added, records (serve E reqs db) = records db ++ added) /\
    (forall i r, nth_error (records db) i = Some r ->
                 nth_error (records (serve E reqs db)) i = Some r) /\
    (forall r, In r (records db) -> In r (records (serve E reqs db))) /\
    (forall env uid email name password,
       records (fst (handle E env (PutProfile uid email name password) db)) =
       records db) /\
    (forall env uid,
       records (fst (handle E env (DeleteUser uid) db)) = records db) /\
    (forall env req, (forall b, req <> PostRecords b) ->
       records (fst (handle E env req db)) = records db) /\
    records (seed_admin db) = records db.
Proof.
  intros E reqs db. destruct (serve_appends E reqs db) as [added H].
  split; [eauto|]. split; [|split; [|split; [|split; [|split]]]].
  - intros i r Hi. rewrite H. rewrite nth_error_app1; auto.
    apply nth_error_Some. congruence.
  - intros r Hr. rewrite H. apply in_or_app. now left.
  - intros. apply handle_keeps_records. discriminate.
  - intros. apply handle_keeps_records. discriminate.
  - intros. now apply handle_keeps_records.
  - apply seed_admin_keeps_records.
Qed.

(** ** Splitting the payload *)

Lemma split_no_separator sep s :
  forallb (fun c => negb (c =? sep)%N) s = true -> split sep s = [s].
Proof.
  induction s as [|c t IH]; cbn [split forallb]; auto.
  intros H. apply andb_true_iff in H as [C T].
  apply negb_true_iff in C. rewrite C, IH by exact T. reflexivity.
Qed.

Lemma split_at_separator sep p rest :
  forallb (fun c => negb (c =? sep)%N) p = true ->
  split sep (p ++ sep :: rest) = p :: split sep rest.
Proof.
  induction p as [|c t IH]; cbn [split forallb app].
  - intros _. now rewrite N.eqb_refl.
  - intros H. apply andb_true_iff in H as [C T].
    apply negb_true_iff in C. rewrite C, IH by exact T. reflexivity.
Qed.

Lemma split_head sep s :
  hd_error (split sep s) = Some (takeWhile (fun c => negb (c =? sep)%N) s).
Proof.
  induction s as [|c t IH]; cbn [split takeWhile]; auto.
  destruct (c =? sep)%N; cbn [negb]; auto.
  destruct (split sep t) as [|seg segs]; cbn [hd_error] in *; [discriminate|].
  injection IH as ->. reflexivity.
Qed.

Lemma takeWhile_all_true {A} (p : A -> bool) l :
  forallb p l = true -> takeWhile p l = l.
Proof. apply takeWhile_all. Qed.

(** C10, as amended.  The image data sent to the vision service is the
    second comma-separated segment of the payload: nothing for a payload
    without a comma, and for a payload [prefix,body] with a single comma
    the body, which for a data URI is the payload without its prefix. *)
Theorem inline_data_sent :
  forall b : record_body,
    let sent := data (inline (vision_request b)) in
    let no_comma := forallb (fun c => negb (c =? 44)%N) in
    (no_comma (imageBase64 b) = true -> sent = None) /\
    (forall prefix rest,
       imageBase64 b = prefix ++ 44%N :: rest -> no_comma prefix = true ->
       sent = Some (takeWhile (fun c => negb (c =? 44)%N) rest)) /\
    (forall prefix body,
       imageBase64 b = prefix ++ 44%N :: body -> no_comma prefix = true ->
       no_comma body = true ->
       sent = Some body /\
       (Client.starts_with (lit "data:") prefix = true ->
        sent = Some (Spec.strip_data_uri (imageBase64 b)))).
Proof.
  intros b sent no_comma. unfold sent, vision_request. cbn [inline data].
  assert (Mid : forall prefix rest,
             imageBase64 b = prefix ++ 44%N :: rest -> no_comma prefix = true ->
             nth_error (split 44 (imageBase64 b)) 1 =
             Some (takeWhile (fun c => negb (c =? 44)%N) rest)).
  { intros prefix rest -> P. rewrite split_at_separator by exact P.
    cbn [nth_error]. pose proof (split_head 44 rest) as H.
    destruct (split 44 rest); cbn in *; congruence. }
  split; [|split].
  - intros H. now rewrite split_no_separator.
  - exact Mid.
  - intros prefix body Eq P B.
    rewrite (Mid prefix body Eq P), takeWhile_all by exact B.
    split; [reflexivity|]. intros D. f_equal.
    unfold Spec.strip_data_uri. rewrite Eq.
    assert (Client.starts_with (lit "data:") (prefix ++ 44%N :: body) = true)
      as ->.
    { clear -D. revert D. generalize (lit "data:").
      induction prefix as [|c t IH]; intros [|a l]; cbn; auto; try discriminate.
      intros H. apply andb_true_iff in H as [-> H]. simpl. now apply IH. }
    assert (existsb (N.eqb 44) (prefix ++ 44%N :: body) = true) as ->.
    { rewrite existsb_app. cbn. now rewrite orb_true_r. }
    cbn [andb]. clear -P. induction prefix as [|c t IH]; cbn in *.
    + reflexivity.
    + apply andb_true_iff in P as [-> P]. auto.
Qed.

(** ** Invariants of the table *)

Lemma well_formed_empty : Spec.well_formed empty_db.
Proof. unfold Spec.well_formed. cbn. repeat split; try constructor. lia. Qed.

Lemma strongly_sorted_snoc {A} (R : A -> A -> Prop) l x :
  StronglySorted R l -> Forall (fun y => R y x) l ->
  StronglySorted R (l ++ [x]).
Proof.
  induction 1 as [|y t S IH F]; intros H; cbn [app].
  - repeat constructor.
  - apply Forall_cons_iff in H as [Hy Ht]. constructor; auto.
    apply Forall_app. split; auto.
Qed.

Lemma handle_well_formed E env req db :
  Spec.well_formed db -> Spec.well_formed (fst (handle E env req db)).
Proof.
  intros W.
  assert (Keep : forall db',
             records db' = records db -> records_seq db' = records_seq db ->
             Spec.well_formed db').
  { intros db' R S. unfold Spec.well_formed. now rewrite R, S. }
  destruct req as [| | |b| | | | |]; cbn [handle fst]; auto.
  - unfold signup, insert_user.
    destruct (existsb _ (users db)); auto.
    destruct (negb (valid_role _)); auto.
  - destruct (post_records_cases E env b db)
      as [[_ C]|[(_ & _ & C)|[(_ & _ & _ & C)|(_ & _ & reply & _ & C)]]];
      rewrite C; cbn [fst]; auto.
    destruct W as (P & S & B & N). unfold Spec.well_formed.
    cbn [records records_seq].
    split; [lia|]. split; [|split].
    + apply strongly_sorted_snoc; auto.
      eapply Forall_impl; [|exact B]. cbn [id]. intros r Hr. lia.
    + apply Forall_app. split.
      * eapply Forall_impl; [|exact B]. cbn. intros r Hr. lia.
      * constructor; [cbn [id]; lia|constructor].
    + apply Forall_app. split; auto.
      constructor; [|constructor]. cbn [bread_count].
      rewrite breadCount_spec. apply nearest_count_nonneg.
  - unfold put_profile, update_user. destruct (_ && _); auto.
  - unfold delete_user. destruct (_ && _); auto.
Qed.

(** X1.  Identifiers are unique and grow with the table, and no stored
    count is below 0, in every database the server can reach. *)
Theorem served_well_formed :
  forall (E : engine) (reqs : list (environment * request)) (db : database),
    Spec.well_formed db -> Spec.well_formed (serve E reqs db).
Proof.
  intros E reqs.
  induction reqs as [|[env req] rest IH]; intros db W; cbn [serve]; auto.
  apply IH, handle_well_formed, W.
Qed.

(** X2.  With a clock that never goes back, timestamps never decrease
    along the table, that is with the identifier. *)
Theorem served_timestamps_sorted :
  forall (E : engine) (reqs : list (environment * request)) (db : database) t,
    Forall (fun r => timestamp r <= t) (records db) ->
    StronglySorted (fun a b => timestamp a <= timestamp b) (records db) ->
    Spec.clock_monotone t reqs ->
    StronglySorted (fun a b => timestamp a <= timestamp b)
                   (records (serve E reqs db)).
Proof.
  intros E reqs.
  induction reqs as [|[env req] rest IH]; intros db t B S M; cbn [serve];
    auto.
  destruct M as [Le M].
  apply (IH _ (now env)); auto.
  - destruct req as [| | |b| | | | |];
      try (rewrite handle_keeps_records by discriminate;
           eapply Forall_impl; [|exact B]; cbn; intros; lia).
    cbn [handle].
    destruct (post_records_cases E env b db)
      as [[_ C]|[(_ & _ & C)|[(_ & _ & _ & C)|(_ & _ & reply & _ & C)]]];
      rewrite C; cbn [fst records];
      try (eapply Forall_impl; [|exact B]; cbn; intros; lia).
    apply Forall_app. split.
    + eapply Forall_impl; [|exact B]; cbn; intros; lia.
    + constructor; [cbn [timestamp]; lia|constructor].
  - destruct req as [| | |b| | | | |];
      try (rewrite handle_keeps_records by discriminate; exact S).
    cbn [handle].
    destruct (post_records_cases E env b db)
      as [[_ C]|[(_ & _ & C)|[(_ & _ & _ & C)|(_ & _ & reply & _ & C)]]];
      rewrite C; cbn [fst records]; auto.
    apply strongly_sorted_snoc; auto.
    eapply Forall_impl; [|exact B]. cbn [timestamp]. intros; lia.
Qed.

(** ** The table of users *)

Lemma insert_user_cases db e p n r :
  (existsb (fun u => jsstring_eqb (u_email u) e) (users db) = true /\
   insert_user db e p n r = Throws "UNIQUE constraint failed: users.email") \/
  (existsb (fun u => jsstring_eqb (u_email u) e) (users db) = false /\
   valid_role r = false /\
   insert_user db e p n r = Throws "CHECK constraint failed: role") \/
  (existsb (fun u => jsstring_eqb (u_email u) e) (users db) = false /\
   valid_role r = true /\
   insert_user db e p n r =
   Done ({| users := users db ++
                     [{| u_id := users_seq db + 1; u_email := e;
                         u_password := p; u_role := r; u_name := n |}];
            records := records db;
            users_seq := users_seq db + 1;
            records_seq := records_seq db |}, users_seq db + 1)).
Proof.
  unfold insert_user.
  destruct (existsb _ (users db)); [left; auto|right].
  destruct (valid_role r); cbn [negb]; [right|left]; auto.
Qed.

Lemma existsb_false_Forall {A} (p : A -> bool) l :
  existsb p l = false <-> Forall (fun x => p x = false) l.
Proof.
  induction l as [|x t IH]; cbn [existsb].
  - split; auto.
  - rewrite orb_false_iff, Forall_cons_iff, IH. reflexivity.
Qed.

Lemma email_free_not_In db e :
  existsb (fun u => jsstring_eqb (u_email u) e) (users db) = false ->
  ~ In e (map u_email (users db)).
Proof.
  intros H I. apply in_map_iff in I as (u & <- & I).
  apply existsb_false_Forall in H. rewrite Forall_forall in H.
  specialize (H u I). now rewrite jsstring_eqb_refl in H.
Qed.

Lemma insert_user_ok db e p n r db' rowid :
  Tables.users_ok db ->
  insert_user db e p n r = Done (db', rowid) ->
  Tables.users_ok db'.
Proof.
  intros (P & S & B & N & R) H.
  destruct (insert_user_cases db e p n r)
    as [[_ C]|[(_ & _ & C)|(F & V & C)]]; rewrite C in H; try discriminate.
  injection H as <- <-. unfold Tables.users_ok.
  cbn [users users_seq]. split; [lia|]. split; [|split; [|split]].
  - apply strongly_sorted_snoc; auto.
    eapply Forall_impl; [|exact B]. cbn [u_id]. intros u Hu. lia.
  - apply Forall_app. split.
    + eapply Forall_impl; [|exact B]. cbn. intros u Hu. lia.
    + constructor; [cbn [u_id]; lia|constructor].
  - rewrite map_app. cbn [map u_email].
    apply Permutation_NoDup with (l := e :: map u_email (users db)).
    + apply Permutation_cons_append.
    + constructor; auto. now apply email_free_not_In.
  - apply Forall_app. split; auto.
Qed.

Lemma strongly_sorted_filter {A} (R : A -> A -> Prop) (p : A -> bool) l :
  StronglySorted R l -> StronglySorted R (filter p l).
Proof.
  induction 1 as [|x t S IH F]; cbn [filter]; [constructor|].
  destruct (p x); auto. constructor; auto.
  rewrite Forall_forall in *. intros y Hy. apply F.
  now apply filter_In in Hy.
Qed.

Lemma NoDup_map_filter {A B} (g : A -> B) (p : A -> bool) l :
  NoDup (map g l) -> NoDup (map g (filter p l)).
Proof.
  induction l as [|x t IH]; cbn [map filter]; auto.
  intros N. inversion N as [|? ? Nx Nt]; subst.
  destruct (p x); auto. cbn [map]. constructor; auto.
  intros I. apply Nx. apply in_map_iff in I as (y & E & I).
  apply filter_In in I as [I _]. rewrite <- E. now apply in_map.
Qed.

Lemma Forall_filter {A} (P : A -> Prop) (p : A -> bool) l :
  Forall P l -> Forall P (filter p l).
Proof.
  rewrite !Forall_forall. intros H x Hx. apply H.
  now apply filter_In in Hx.
Qed.

(** The row written by [UPDATE users SET ...] for a user. *)
Lemma update_user_cases uid e n pw db :
  (existsb (fun u => u_id u =? uid) (users db) = true /\
   existsb (fun u => negb (u_id u =? uid) && jsstring_eqb (u_email u) e)
           (users db) = true /\
   update_user uid e n pw db =
   Throws "UNIQUE constraint failed: users.email") \/
  ((existsb (fun u => u_id u =? uid) (users db) = false \/
    existsb (fun u => negb (u_id u =? uid) && jsstring_eqb (u_email u) e)
            (users db) = false) /\
   update_user uid e n pw db =
   Done {| users := map (Tables.updated uid e n pw) (users db);
           records := records db;
           users_seq := users_seq db;
           records_seq := records_seq db |}).
Proof.
  unfold update_user.
  destruct (existsb (fun u => u_id u =? uid) (users db));
    destruct (existsb _ (users db)); cbn [andb]; auto.
Qed.

Lemma updated_id uid e n pw u : u_id (Tables.updated uid e n pw u) = u_id u.
Proof. unfold Tables.updated. now destruct (u_id u =? uid). Qed.

Lemma updated_role uid e n pw u :
  u_role (Tables.updated uid e n pw u) = u_role u.
Proof. unfold Tables.updated. now destruct (u_id u =? uid). Qed.

Lemma updated_unknown uid e n pw l :
  existsb (fun u => u_id u =? uid) l = false ->
  map (Tables.updated uid e n pw) l = l.
Proof.
  induction l as [|u t IH]; cbn [existsb map]; auto.
  intros H. apply orb_false_iff in H as [H T]. unfold Tables.updated at 1.
  rewrite H, IH by exact T. reflexivity.
Qed.

Lemma updated_sorted uid e n pw l :
  StronglySorted (fun a b => u_id a < u_id b) l ->
  StronglySorted (fun a b => u_id a < u_id b)
                 (map (Tables.updated uid e n pw) l).
Proof.
  induction 1 as [|x t S IH F]; cbn [map]; constructor; auto.
  rewrite Forall_forall in *. intros y Hy.
  apply in_map_iff in Hy as (z & <- & Hz). rewrite !updated_id. auto.
Qed.

Lemma ids_above l x :
  Forall (fun y => u_id x < u_id y) l ->
  existsb (fun u => u_id u =? u_id x) l = false.
Proof.
  intros F. apply existsb_false_Forall.
  eapply Forall_impl; [|exact F]. cbn. intros y Hy. apply Z.eqb_neq. lia.
Qed.

Lemma updated_emails uid e n pw l :
  StronglySorted (fun a b => u_id a < u_id b) l ->
  NoDup (map u_email l) ->
  existsb (fun u => negb (u_id u =? uid) && jsstring_eqb (u_email u) e) l
  = false ->
  NoDup (map u_email (map (Tables.updated uid e n pw) l)).
Proof.
  induction 1 as [|x t S IH F]; cbn [map existsb]; intros N X; auto.
  inversion N as [|? ? Nx Nt]; subst.
  apply orb_false_iff in X as [X T]. unfold Tables.updated at 1.
  destruct (u_id x =? uid) eqn:I.
  - apply Z.eqb_eq in I. subst uid.
    rewrite updated_unknown by now apply ids_above.
    cbn [u_email]. constructor; auto.
    intros M. apply in_map_iff in M as (y & Ey & My).
    apply existsb_false_Forall in T. rewrite Forall_forall in T.
    specialize (T y My). rewrite Forall_forall in F. specialize (F y My).
    cbn beta in T.
    rewrite Ey, jsstring_eqb_refl, andb_true_r in T.
    apply negb_false_iff, Z.eqb_eq in T. lia.
  - cbn [negb andb] in X. constructor; auto.
    intros M. apply in_map_iff in M as (y & Ey & My).
    apply in_map_iff in My as (z & <- & Mz). unfold Tables.updated in Ey.
    destruct (u_id z =? uid).
    + cbn [u_email] in Ey. rewrite Ey, jsstring_eqb_refl in X. discriminate.
    + apply Nx. rewrite <- Ey. now apply in_map.
Qed.

Lemma update_user_ok uid e n pw db db' :
  Tables.users_ok db -> update_user uid e n pw db = Done db' ->
  Tables.users_ok db'.
Proof.
  intros (P & S & B & N & R) H.
  destruct (update_user_cases uid e n pw db) as [(_ & _ & C)|[X C]];
    rewrite C in H; [discriminate|].
  injection H as <-. unfold Tables.users_ok. cbn [users users_seq].
  split; [exact P|]. split; [|split; [|split]].
  - now apply updated_sorted.
  - rewrite Forall_forall in *. intros y Hy.
    apply in_map_iff in Hy as (z & <- & Hz).
    specialize (B z Hz). now rewrite updated_id.
  - destruct X as [X|X].
    + now rewrite updated_unknown.
    + now apply updated_emails.
  - rewrite Forall_forall in *. intros y Hy.
    apply in_map_iff in Hy as (z & <- & Hz).
    specialize (R z Hz). now rewrite updated_role.
Qed.

Lemma put_profile_users_ok i e n p db :
  Tables.users_ok db -> Tables.users_ok (fst (put_profile i e n p db)).
Proof.
  intros W. unfold put_profile.
  destruct (update_user i e n _ db) as [db'|m] eqn:U; cbn [fst]; auto.
  eapply update_user_ok; eauto.
Qed.

Lemma delete_user_users_ok E i db :
  Tables.users_ok db -> Tables.users_ok (fst (delete_user E i db)).
Proof.
  intros W. unfold delete_user. destruct (_ && _); cbn [fst]; auto.
  destruct W as (P & S & B & N & R). unfold Tables.users_ok.
  cbn [users users_seq]. split; [exact P|].
  split; [|split; [|split]].
  - now apply strongly_sorted_filter.
  - now apply Forall_filter.
  - now apply NoDup_map_filter.
  - now apply Forall_filter.
Qed.

Lemma handle_users_ok E env req db :
  Tables.users_ok db -> Tables.users_ok (fst (handle E env req db)).
Proof.
  intros W.
  destruct req as [|e p|e p n r|b|u r| |i e n p|i|]; cbn [handle fst]; auto.
  - unfold signup.
    destruct (insert_user db e p n _) as [[db' rowid]|m] eqn:I; cbn [fst]; auto.
    eapply insert_user_ok; eauto.
  - destruct (post_records_cases E env b db)
      as [[_ C]|[(_ & _ & C)|[(_ & _ & _ & C)|(_ & _ & reply & _ & C)]]];
      rewrite C; cbn [fst]; auto.
  - now apply put_profile_users_ok.
  - now apply delete_user_users_ok.
Qed.

Lemma serve_users_ok E reqs db :
  Tables.users_ok db -> Tables.users_ok (serve E reqs db).
Proof.
  revert db.
  induction reqs as [|[env req] rest IH]; intros db W; cbn [serve]; auto.
  apply IH, handle_users_ok, W.
Qed.

(** ** Signing up and logging in *)

Lemma find_credentials l u e p :
  NoDup (map u_email l) -> In u l -> u_email u = e -> u_password u = p ->
  find (fun v => jsstring_eqb (u_email v) e && jsstring_eqb (u_password v) p)
       l = Some u.
Proof.
  intros N I <- <-. induction l as [|x t IH]; [contradiction|].
  inversion N as [|? ? Nx Nt]; subst. cbn [find].
  destruct I as [->|I].
  - now rewrite !jsstring_eqb_refl.
  - destruct (jsstring_eqb (u_email x) (u_email u)) eqn:X; cbn [andb]; auto.
    apply jsstring_eqb_eq in X. elim Nx. rewrite X. now apply in_map.
Qed.

Lemma find_no_email l e p :
  ~ In e (map u_email l) ->
  find (fun v => jsstring_eqb (u_email v) e && jsstring_eqb (u_password v) p)
       l = None.
Proof.
  intros N. induction l as [|x t IH]; cbn [find]; auto.
  destruct (jsstring_eqb (u_email x) e) eqn:X; cbn [andb].
  - apply jsstring_eqb_eq in X. elim N. left. exact X.
  - apply IH. intros I. apply N. now right.
Qed.

Lemma emails_unique l u v :
  NoDup (map u_email l) -> In u l -> In v l -> u_email u = u_email v ->
  u = v.
Proof.
  induction l as [|x t IH]; cbn [map In]; [contradiction|].
  intros N Iu Iv E. inversion N as [|? ? Nx Nt]; subst.
  destruct Iu as [->|Iu], Iv as [->|Iv]; auto.
  - elim Nx. rewrite E. now apply in_map.
  - elim Nx. rewrite <- E. now apply in_map.
Qed.

Lemma login_refused e p db :
  (forall u, In u (users db) -> Tables.credentials u e p = false) ->
  login e p db = Failed 401 "Invalid credentials".
Proof.
  intros H. unfold login.
  destruct (find _ (users db)) as [u|] eqn:F; auto.
  apply find_some in F as [I C]. specialize (H u I).
  unfold Tables.credentials in H. congruence.
Qed.

Lemma find_app_none {A} (p : A -> bool) l1 l2 :
  find p l1 = None -> find p (l1 ++ l2) = find p l2.
Proof.
  induction l1 as [|x t IH]; cbn [find app]; auto.
  destruct (p x); [discriminate|auto].
Qed.

Lemma signup_cases e p n r db :
  let role := match r with Some x => x | None => lit "employee" end in
  ((existsb (fun u => jsstring_eqb (u_email u) e) (users db) = true \/
    valid_role role = false) /\
   signup e p n r db = (db, Failed 400 "Email already exists")) \/
  (existsb (fun u => jsstring_eqb (u_email u) e) (users db) = false /\
   valid_role role = true /\
   signup e p n r db =
   ({| users := users db ++
                [{| u_id := users_seq db + 1; u_email := e;
                    u_password := p; u_role := role; u_name := n |}];
       records := records db;
       users_seq := users_seq db + 1;
       records_seq := records_seq db |},
    User (Some {| i_id := users_seq db + 1; i_email := e; i_name := n;
                  i_role := role |}))).
Proof.
  intros role. unfold signup. fold role.
  destruct (insert_user_cases db e p n role)
    as [[X C]|[(X & V & C)|(X & V & C)]]; rewrite C; auto.
Qed.

(** X7.  A user who has just signed up can log in: the credentials given
    at the sign-up are accepted, and the login answers the very user the
    sign-up answered, whose role is [employee] unless one was asked
    for. *)
Theorem signup_then_login :
  forall (e p n : jsstring) (r : option jsstring) (db db' : database)
         (i : user_info),
    signup e p n r db = (db', User (Some i)) ->
    login e p db' = User (Some i) /\
    i_id i = users_seq db + 1 /\ i_email i = e /\ i_name i = n /\
    i_role i = match r with Some x => x | None => lit "employee" end /\
    valid_role (i_role i) = true /\
    exists u, users db' = users db ++ [u] /\ info u = i /\ u_password u = p.
Proof.
  intros e p n r db db' i H.
  destruct (signup_cases e p n r db) as [[_ C]|(X & V & C)];
    rewrite C in H; [discriminate|].
  injection H as <- <-. cbn [i_id i_email i_name i_role].
  split; [|repeat split; eauto].
  - unfold login. cbn [users].
    rewrite find_app_none
      by (apply find_no_email; now apply email_free_not_In).
    cbn [find u_email u_password]. now rewrite !jsstring_eqb_refl.
  - eexists. cbn [users]. split; [reflexivity|]. split; reflexivity.
Qed.

(** X8.  A sign-up whose email is a string and whose role is a string
    or left out is refused exactly when the email is taken or the role is
    not one of the two roles; both are answered with status 400 and the
    message that the email exists, and nothing is written. *)
Theorem signup_rejected :
  forall (e p n : jsstring) (r : option jsstring) (db : database),
    let role := match r with Some x => x | None => lit "employee" end in
    ((In e (map u_email (users db)) \/ valid_role role = false) <->
     signup e p n r db = (db, Failed 400 "Email already exists")) /\
    (forall db' status message,
       signup e p n r db = (db', Failed status message) ->
       db' = db /\ status = 400 /\
       message = "Email already exists"%string) /\
    (r = None ->
     (In e (map u_email (users db)) <->
      signup e p n r db = (db, Failed 400 "Email already exists"))).
Proof.
  intros e p n r db role.
  assert (T : existsb (fun u => jsstring_eqb (u_email u) e) (users db) = true
              <-> In e (map u_email (users db))).
  { rewrite existsb_exists, in_map_iff. split; intros (u & A & B).
    - exists u. split; auto. now apply jsstring_eqb_eq.
    - exists u. split; auto. now apply jsstring_eqb_eq. }
  subst role.
  destruct (signup_cases e p n r db) as [[X C]|(X & V & C)]; rewrite C.
  - split; [|split].
    + split; auto. intros _. rewrite <- T. exact X.
    + intros ? ? ? H. injection H as <- <- <-. auto.
    + intros ->. split; auto. intros _. rewrite <- T.
      destruct X as [X|X]; auto. vm_compute in X. discriminate.
  - split; [|split].
    + split; [|discriminate]. rewrite <- T. intros [Y|Y]; congruence.
    + discriminate.
    + intros _. split; [|discriminate]. rewrite <- T. congruence.
Qed.

(** X9.  A login succeeds exactly with the email and the password of a
    stored user and answers that user's identifier, email, name and
    role; any other pair is answered with status 401.  When emails are
    unique every stored user can log in as themselves. *)
Theorem login_outcomes :
  forall (e p : jsstring) (db : database),
    (forall i, login e p db = User (Some i) ->
               exists u, In u (users db) /\ u_email u = e /\
                         u_password u = p /\ i = info u) /\
    ((forall u, In u (users db) -> Tables.credentials u e p = false) <->
     login e p db = Failed 401 "Invalid credentials") /\
    (login e p db = Failed 401 "Invalid credentials" \/
     exists i, login e p db = User (Some i)) /\
    (NoDup (map u_email (users db)) ->
     forall u, In u (users db) ->
               login (u_email u) (u_password u) db = User (Some (info u))).
Proof.
  intros e p db. unfold login.
  split; [|split; [|split]].
  - intros i H. destruct (find _ (users db)) as [u|] eqn:F; [|discriminate].
    injection H as <-. apply find_some in F as [I C].
    apply andb_true_iff in C as [C1 C2].
    apply jsstring_eqb_eq in C1, C2. eauto.
  - destruct (find _ (users db)) as [u|] eqn:F.
    + split; [|discriminate]. intros H. apply login_refused in H.
      unfold login in H. rewrite F in H. discriminate.
    + split; auto. intros _ u I. exact (find_none _ _ F u I).
  - destruct (find _ (users db)); eauto.
  - intros N u I. now rewrite (find_credentials _ u).
Qed.

(** ** Identifiers and roles over time *)

Lemma handle_users_seq E env req db :
  users_seq db <= users_seq (fst (handle E env req db)).
Proof.
  destruct req as [|e p|e p n r|b|u r| |i e n p|i|]; cbn [handle fst];
    try lia.
  - destruct (signup_cases e p n r db) as [[_ C]|(_ & _ & C)]; rewrite C;
      cbn [fst users_seq]; lia.
  - destruct (post_records_cases E env b db)
      as [[_ C]|[(_ & _ & C)|[(_ & _ & _ & C)|(_ & _ & reply & _ & C)]]];
      rewrite C; cbn [fst users_seq]; lia.
  - unfold put_profile.
    destruct (update_user_cases i e n
                (match p with
                 | Some q => if str_truthy q then Some q else None
                 | None => None
                 end) db) as [(_ & _ & C)|[_ C]];
      rewrite C; cbn [fst users_seq]; lia.
  - unfold delete_user. destruct (_ && _); cbn [fst users_seq]; lia.
Qed.

Lemma serve_users_seq E reqs db : users_seq db <= users_seq (serve E reqs db).
Proof.
  revert db. induction reqs as [|[env req] rest IH]; intros db; cbn [serve].
  - lia.
  - specialize (IH (fst (handle E env req db))).
    pose proof (handle_users_seq E env req db). lia.
Qed.

(** X5.  The identifier of a user is never given again: a sign-up
    accepted after any sequence of requests answers an identifier larger
    than the identifier of every user there was, deleted since or not. *)
Theorem user_ids_never_reused :
  forall (E : engine) (reqs : list (environment * request))
         (e p n : jsstring) (r : option jsstring) (db db' : database)
         (i : user_info),
    Tables.users_ok db ->
    signup e p n r (serve E reqs db) = (db', User (Some i)) ->
    users_seq db < i_id i /\
    Forall (fun u => u_id u < i_id i) (users db) /\
    Forall (fun u => u_id u < i_id i) (users (serve E reqs db)).
Proof.
  intros E reqs e p n r db db' i W H.
  pose proof (serve_users_seq E reqs db) as M.
  pose proof (serve_users_ok E reqs db W) as (_ & _ & B' & _).
  destruct W as (_ & _ & B & _).
  destruct (signup_cases e p n r (serve E reqs db)) as [[_ C]|(_ & _ & C)];
    rewrite C in H; [discriminate|].
  injection H as <- <-. cbn [i_id]. split; [lia|]. split.
  - eapply Forall_impl; [|exact B]. cbn. intros u Hu. lia.
  - eapply Forall_impl; [|exact B']. cbn. intros u Hu. lia.
Qed.

Lemma sorted_ids_unique l u v :
  StronglySorted (fun a b => u_id a < u_id b) l ->
  In u l -> In v l -> u_id u = u_id v -> u = v.
Proof.
  induction 1 as [|x t S IH F]; cbn [In]; [contradiction|].
  rewrite Forall_forall in F.
  intros [->|Hu] [->|Hv] Eq; auto.
  - specialize (F v Hv). lia.
  - specialize (F u Hu). lia.
Qed.

(** A user found after a request with an identifier already handed out
    was there before, with the same role. *)
Lemma handle_keeps_roles E env req db v :
  In v (users (fst (handle E env req db))) -> u_id v <= users_seq db ->
  exists u, In u (users db) /\ u_id u = u_id v /\ u_role u = u_role v.
Proof.
  destruct req as [|e p|e p n r|b|u r| |i e n p|i|]; cbn [handle fst]; eauto.
  - destruct (signup_cases e p n r db) as [[_ C]|(_ & _ & C)]; rewrite C;
      cbn [fst users]; eauto.
    intros I L. apply in_app_or in I as [I|[<-|[]]]; eauto.
    cbn [u_id] in L. lia.
  - destruct (post_records_cases E env b db)
      as [[_ C]|[(_ & _ & C)|[(_ & _ & _ & C)|(_ & _ & reply & _ & C)]]];
      rewrite C; cbn [fst users]; eauto.
  - unfold put_profile.
    destruct (update_user_cases i e n
                (match p with
                 | Some q => if str_truthy q then Some q else None
                 | None => None
                 end) db) as [(_ & _ & C)|[_ C]];
      rewrite C; cbn [fst users]; eauto.
    intros I _. apply in_map_iff in I as (u & <- & I).
    exists u. now rewrite updated_id, updated_role.
  - unfold delete_user. destruct (_ && _); cbn [fst users]; eauto.
    intros I _. apply filter_In in I as [I _]. eauto.
Qed.

Lemma serve_keeps_roles E reqs db v :
  In v (users (serve E reqs db)) -> u_id v <= users_seq db ->
  exists u, In u (users db) /\ u_id u = u_id v /\ u_role u = u_role v.
Proof.
  revert db. induction reqs as [|[env req] rest IH]; intros db; cbn [serve].
  - eauto.
  - intros I L. pose proof (handle_users_seq E env req db) as M.
    destruct (IH _ I) as (u1 & I1 & Id1 & R1); [lia|].
    destruct (handle_keeps_roles E env req db u1 I1) as (u & Iu & Id & R);
      [lia|].
    exists u. repeat split; congruence.
Qed.

Lemma serve_role_of E reqs db u v :
  Tables.users_ok db ->
  In u (users db) -> In v (users (serve E reqs db)) ->
  u_id v = u_id u -> u_role v = u_role u.
Proof.
  intros (_ & S & B & _) Iu Iv Eq.
  rewrite Forall_forall in B. pose proof (B u Iu) as Bu.
  destruct (serve_keeps_roles E reqs db v Iv) as (u' & Iu' & Id & R); [lia|].
  assert (u' = u) as -> by (eapply sorted_ids_unique; eauto; congruence).
  congruence.
Qed.

(** X6.  No request changes the role of a user, and none puts a user
    under an identifier handed out before: whoever is found under the
    identifier of a user of before has the role that user had, and
    whoever is found under an identifier within the old sequence was
    there before. *)
Theorem roles_are_permanent :
  forall (E : engine) (reqs : list (environment * request)) (db : database)
         (v : user),
    Tables.users_ok db ->
    In v (users (serve E reqs db)) ->
    (forall u, In u (users db) -> u_id v = u_id u -> u_role v = u_role u) /\
    (u_id v <= users_seq db ->
     exists u, In u (users db) /\ u_id u = u_id v /\ u_role u = u_role v).
Proof.
  intros E reqs db v W Iv. split.
  - intros u Iu. now apply (serve_role_of E reqs db u v).
  - exact (serve_keeps_roles E reqs db v Iv).
Qed.

(** ** Updating a profile *)

(** The member [password] as the handler reads it: an empty text is no
    password. *)
Lemma put_profile_cases i e n pw db :
  (existsb (fun u => u_id u =? i) (users db) = true /\
   existsb (fun u => negb (u_id u =? i) && jsstring_eqb (u_email u) e)
           (users db) = true /\
   put_profile i e n pw db =
   (db, Failed 400 "Email já existe ou erro ao atualizar")) \/
  ((existsb (fun u => u_id u =? i) (users db) = false \/
    existsb (fun u => negb (u_id u =? i) && jsstring_eqb (u_email u) e)
            (users db) = false) /\
   exists pw',
     (forall u, match pw' with Some q => q | None => u_password u end =
                Tables.new_password pw u) /\
     put_profile i e n pw db =
     ({| users := map (Tables.updated i e n pw') (users db);
         records := records db;
         users_seq := users_seq db;
         records_seq := records_seq db |},
      User (option_map info
              (find (fun u => u_id u =? i)
                    (map (Tables.updated i e n pw') (users db)))))).
Proof.
  unfold put_profile.
  set (pw' := match pw with
              | Some q => if str_truthy q then Some q else None
              | None => None
              end).
  destruct (update_user_cases i e n pw' db) as [(X & Y & C)|[X C]];
    rewrite C; [left; auto|right]. split; auto.
  exists pw'. split; auto.
  intros u. unfold pw', Tables.new_password.
  destruct pw as [q|]; auto. destruct (str_truthy q); auto.
Qed.

Lemma find_id_updated i e n pw l u :
  StronglySorted (fun a b => u_id a < u_id b) l -> In u l -> u_id u = i ->
  find (fun v => u_id v =? i) (map (Tables.updated i e n pw) l) =
  Some (Tables.updated i e n pw u).
Proof.
  intros S I <-. induction S as [|x t S IH F]; [contradiction|].
  cbn [map find]. rewrite updated_id.
  destruct I as [->|I].
  - now rewrite Z.eqb_refl.
  - rewrite Forall_forall in F. specialize (F u I).
    destruct (Z.eqb_spec (u_id x) (u_id u)); [lia|auto].
Qed.

Lemma find_id_unknown i l :
  existsb (fun u => u_id u =? i) l = false ->
  find (fun v => u_id v =? i) l = None.
Proof.
  induction l as [|x t IH]; cbn [existsb find]; auto.
  intros H. apply orb_false_iff in H as [-> H]. auto.
Qed.

Lemma existsb_id_In i l :
  existsb (fun u => u_id u =? i) l = true <-> In i (map u_id l).
Proof.
  rewrite existsb_exists, in_map_iff. split; intros (u & A & B).
  - exists u. split; auto. now apply Z.eqb_eq.
  - exists u. split; auto. now apply Z.eqb_eq.
Qed.

Lemma email_of_other i e l :
  existsb (fun u => negb (u_id u =? i) && jsstring_eqb (u_email u) e) l = true
  <-> exists v, In v l /\ u_id v <> i /\ u_email v = e.
Proof.
  rewrite existsb_exists. split; intros (v & I & H); exists v; split; auto.
  - apply andb_true_iff in H as [A B].
    apply negb_true_iff, Z.eqb_neq in A. apply jsstring_eqb_eq in B. auto.
  - destruct H as [A B]. apply andb_true_iff. split.
    + now apply negb_true_iff, Z.eqb_neq.
    + now apply jsstring_eqb_eq.
Qed.

(** X10.  A profile update of an unknown identifier writes nothing and
    answers with no user; one that takes the email of another user is
    refused with status 400 and writes nothing; any other one sets the
    email and the name of that user, and the password when a non-empty
    one is given, and answers the updated user.  No update changes an
    identifier, a role, another user or the records. *)
Theorem put_profile_outcomes :
  forall (i : Z) (e n : jsstring) (pw : option jsstring) (db : database),
    Tables.users_ok db ->
    (~ In i (map u_id (users db)) ->
     put_profile i e n pw db = (db, User None)) /\
    (forall u, In u (users db) -> u_id u = i ->
       ((exists v, In v (users db) /\ u_id v <> i /\ u_email v = e) ->
        put_profile i e n pw db =
        (db, Failed 400 "Email já existe ou erro ao atualizar")) /\
       ((forall v, In v (users db) -> u_id v <> i -> u_email v <> e) ->
        exists db',
          put_profile i e n pw db =
          (db', User (Some {| i_id := i; i_email := e; i_name := n;
                              i_role := u_role u |})) /\
          In {| u_id := i; u_email := e;
                u_password := Tables.new_password pw u;
                u_role := u_role u; u_name := n |} (users db'))) /\
    (forall db' answer,
       put_profile i e n pw db = (db', answer) ->
       map u_id (users db') = map u_id (users db) /\
       map u_role (users db') = map u_role (users db) /\
       users_seq db' = users_seq db /\ records db' = records db /\
       (forall v, In v (users db) -> u_id v <> i -> In v (users db'))).
Proof.
  intros i e n pw db (P & S & B & N & R). split; [|split].
  - intros U.
    assert (X : existsb (fun u => u_id u =? i) (users db) = false).
    { destruct (existsb _ (users db)) eqn:X; auto.
      now apply existsb_id_In in X. }
    destruct (put_profile_cases i e n pw db)
      as [(X' & _ & _)|(_ & pw' & _ & C)]; [congruence|].
    rewrite C, updated_unknown, find_id_unknown by exact X.
    now destruct db.
  - intros u I Id. split.
    + intros O. apply email_of_other in O.
      destruct (put_profile_cases i e n pw db)
        as [(_ & _ & C)|([X|X] & _)]; auto; [|congruence].
      assert (existsb (fun u => u_id u =? i) (users db) = true);
        [|congruence].
      apply existsb_id_In. rewrite <- Id. now apply in_map.
    + intros Fr.
      destruct (put_profile_cases i e n pw db)
        as [(_ & Y & _)|(_ & pw' & Pw & C)].
      * apply email_of_other in Y as (v & Iv & Nv & Ev).
        elim (Fr v Iv Nv Ev).
      * rewrite C, (find_id_updated i e n pw' _ u) by auto.
        eexists. split.
        -- unfold Tables.updated. rewrite Id, Z.eqb_refl. reflexivity.
        -- cbn [users]. apply in_map_iff. exists u. split; auto.
           unfold Tables.updated. rewrite Id, Z.eqb_refl, Pw. reflexivity.
  - intros db' answer H.
    destruct (put_profile_cases i e n pw db)
      as [(_ & _ & C)|(_ & pw' & _ & C)]; rewrite C in H;
      injection H as <- <-; cbn [users users_seq records].
    + repeat split; auto.
    + rewrite !map_map. repeat split; auto.
      * apply map_ext. intros a. apply updated_id.
      * apply map_ext. intros a. apply updated_role.
      * intros v Iv Nv. apply in_map_iff. exists v. split; auto.
        unfold Tables.updated. apply Z.eqb_neq in Nv. now rewrite Nv.
Qed.

Lemma put_profile_login e n pw db db' u i :
    Tables.users_ok db -> In u (users db) ->
    put_profile (u_id u) e n pw db = (db', User (Some i)) ->
    login e (Tables.new_password pw u) db' = User (Some i) /\
    i = {| i_id := u_id u; i_email := e; i_name := n; i_role := u_role u |} /\
    (forall q, e <> u_email u ->
               login (u_email u) q db' = Failed 401 "Invalid credentials") /\
    (Tables.new_password pw u <> u_password u ->
     login e (u_password u) db' = Failed 401 "Invalid credentials").
Proof.
  intros W I H.
  assert (W' : Tables.users_ok db').
  { change db' with (fst (db', User (Some i))). rewrite <- H.
    now apply put_profile_users_ok. }
  destruct W as (P & S & B & N & R). destruct W' as (_ & _ & _ & N' & _).
  destruct (put_profile_cases (u_id u) e n pw db)
    as [(_ & _ & C)|(_ & pw' & Pw & C)]; rewrite C in H; [discriminate|].
  injection H as <- H. cbn [users] in *.
  rewrite (find_id_updated (u_id u) e n pw' _ u) in H by auto.
  cbn [option_map] in H. injection H as <-.
  set (u' := Tables.updated (u_id u) e n pw' u) in *.
  assert (U' : u' = {| u_id := u_id u; u_email := e;
                       u_password := Tables.new_password pw u;
                       u_role := u_role u; u_name := n |}).
  { unfold u', Tables.updated. now rewrite Z.eqb_refl, Pw. }
  assert (I' : In u' (map (Tables.updated (u_id u) e n pw') (users db)))
    by now apply in_map.
  split; [|split; [|split]].
  - unfold login. cbn [users].
    rewrite (find_credentials _ u'); auto; rewrite U'; reflexivity.
  - now rewrite U'.
  - intros q Ne. unfold login. cbn [users]. rewrite find_no_email; auto.
    intros M. apply in_map_iff in M as (v' & Ev & Iv').
    apply in_map_iff in Iv' as (v & <- & Iv).
    unfold Tables.updated in Ev. destruct (Z.eqb_spec (u_id v) (u_id u)).
    + cbn [u_email] in Ev. congruence.
    + pose proof (emails_unique (users db) v u N Iv I Ev). congruence.
  - intros Ne.
    apply login_refused. intros v Iv. unfold Tables.credentials.
    destruct (jsstring_eqb (u_email v) e) eqn:Ee; cbn [andb]; auto.
    apply jsstring_eqb_eq in Ee.
    assert (v = u').
    { cbn [users] in Iv. apply (emails_unique _ v u' N' Iv I').
      rewrite Ee, U'. reflexivity. }
    subst v. rewrite U'. cbn [u_password].
    destruct (jsstring_eqb _ (u_password u)) eqn:Q; auto.
    apply jsstring_eqb_eq in Q. contradiction.
Qed.

(** X11.  After an accepted profile update the user logs in with the new
    email and the password in force, which is the old one when none or an
    empty one was given; the old email is free, and a replaced password
    is refused. *)
Theorem put_profile_then_login :
  forall (e n : jsstring) (pw : option jsstring) (db db' : database)
         (u : user) (i : user_info),
    Tables.users_ok db -> In u (users db) ->
    put_profile (u_id u) e n pw db = (db', User (Some i)) ->
    login e (Tables.new_password pw u) db' = User (Some i) /\
    i = {| i_id := u_id u; i_email := e; i_name := n; i_role := u_role u |} /\
    (forall q, e <> u_email u ->
               login (u_email u) q db' = Failed 401 "Invalid credentials") /\
    (Tables.new_password pw u <> u_password u ->
     login e (u_password u) db' = Failed 401 "Invalid credentials").
Proof. intros e n pw db db' u i. apply put_profile_login. Qed.

(** X4.  Over every sequence of requests whose members have the types
    the page sends (the emails and roles are strings, and a role may be
    left out), the identifiers of the users stay positive, distinct and
    within the sequence of the table, no two users share an email, and
    every role is [admin] or [employee]. *)
Theorem served_users_ok :
  forall (E : engine) (reqs : list (environment * request)) (db : database),
    Tables.users_ok db ->
    Tables.users_ok (serve E reqs db) /\
    NoDup (map u_id (users (serve E reqs db))) /\
    users_seq db <= users_seq (serve E reqs db).
Proof.
  intros E reqs db W. pose proof (serve_users_ok E reqs db W) as W'.
  split; [exact W'|]. split; [|apply serve_users_seq].
  destruct W' as (_ & S & _). clear -S.
  induction S as [|x t S IH F]; cbn [map]; constructor; auto.
  intros I. apply in_map_iff in I as (y & Ey & Iy).
  rewrite Forall_forall in F. specialize (F y Iy). lia.
Qed.

(** X12.  The profile form of the page sends no password when its field
    is empty: after an accepted update the page holds the new email and
    name with the old role, and the user logs in with the new email and
    the old password, or with the new password when one was typed. *)
Theorem profile_form_keeps_password :
  forall (E : engine) (env : environment) (f : Page.form) (ud : UserData)
         (v : user) (db db' : database) (req : request) (i : user_info),
    Tables.users_ok db -> In v (users db) -> ud_id ud = u_id v ->
    Page.handleUpdateProfile (Some ud) f = Some req ->
    handle E env req db = (db', User (Some i)) ->
    Page.setUser (User (Some i)) (Some ud) =
    Some {| ud_id := u_id v; ud_email := Page.f_email f;
            ud_role := u_role v; ud_name := Page.f_name f |} /\
    (Page.f_password f = [] ->
     login (Page.f_email f) (u_password v) db' = User (Some i)) /\
    (Page.f_password f <> [] ->
     login (Page.f_email f) (Page.f_password f) db' = User (Some i)).
Proof.
  intros E env f ud v db db' req i W I Id R H.
  cbn [Page.handleUpdateProfile] in R. injection R as <-.
  cbn [handle] in H. rewrite Id in H.
  destruct (put_profile_login _ _ _ _ _ _ _ W I H) as (L & -> & _).
  split; [reflexivity|]. unfold Tables.new_password in L.
  destruct (Page.f_password f) as [|c t]; cbn [str_truthy] in L.
  - split; [auto|]. intros N. now elim N.
  - split; [discriminate|]. auto.
Qed.

(** ** Deleting a user *)

Lemma delete_user_cases E i db :
  (foreign_keys E = true /\
   existsb (fun r => user_id r =? i) (records db) = true /\
   existsb (fun u => u_id u =? i) (users db) = true /\
   delete_user E i db = (db, Failed 500 "FOREIGN KEY constraint failed")) \/
  ((foreign_keys E = false \/
    existsb (fun r => user_id r =? i) (records db) = false \/
    existsb (fun u => u_id u =? i) (users db) = false) /\
   delete_user E i db =
   ({| users := filter (fun u => negb (u_id u =? i)) (users db);
       records := records db;
       users_seq := users_seq db;
       records_seq := records_seq db |}, Success)).
Proof.
  unfold delete_user.
  destruct (foreign_keys E); destruct (existsb _ (records db));
    destruct (existsb _ (users db)); cbn [andb]; auto 6.
Qed.

Lemma filter_all {A} (p : A -> bool) l :
  existsb (fun x => negb (p x)) l = false -> filter p l = l.
Proof.
  induction l as [|x t IH]; cbn [existsb filter]; auto.
  intros H. apply orb_false_iff in H as [X T].
  apply negb_false_iff in X. now rewrite X, IH.
Qed.

Lemma filter_twice {A} (p : A -> bool) l :
  filter p (filter p l) = filter p l.
Proof.
  induction l as [|x t IH]; cbn [filter]; auto.
  destruct (p x) eqn:X; cbn [filter]; rewrite ?X, IH; auto.
Qed.

Lemma deleted_absent i l :
  existsb (fun u => u_id u =? i) (filter (fun u => negb (u_id u =? i)) l)
  = false.
Proof.
  apply existsb_false_Forall, Forall_forall. intros u I.
  apply filter_In in I as [_ I]. now apply negb_true_iff in I.
Qed.

(** X13.  Deleting a user removes exactly the users with that identifier,
    whatever their role, and neither a record nor another user; it is
    refused, with status 500 and nothing written, only when foreign keys
    are enforced and the user has records.  An unknown identifier is
    answered with success, and deleting again changes nothing more. *)
Theorem delete_user_outcomes :
  forall (E : engine) (i : Z) (db : database),
    (forall db' answer,
       delete_user E i db = (db', answer) ->
       records db' = records db /\ users_seq db' = users_seq db /\
       records_seq db' = records_seq db) /\
    (forall db',
       delete_user E i db = (db', Success) ->
       users db' = filter (fun u => negb (u_id u =? i)) (users db) /\
       (forall u, In u (users db') <-> In u (users db) /\ u_id u <> i)) /\
    (forall db' status message,
       delete_user E i db = (db', Failed status message) ->
       db' = db /\ status = 500 /\ foreign_keys E = true /\
       In i (map u_id (users db)) /\ In i (map user_id (records db))) /\
    (foreign_keys E = true -> In i (map u_id (users db)) ->
     In i (map user_id (records db)) ->
     exists message, delete_user E i db = (db, Failed 500 message)) /\
    (~ In i (map u_id (users db)) -> delete_user E i db = (db, Success)) /\
    fst (delete_user E i (fst (delete_user E i db))) =
    fst (delete_user E i db).
Proof.
  intros E i db.
  assert (Rec : forall l, existsb (fun r => user_id r =? i) l = true <->
                          In i (map user_id l)).
  { intros l. rewrite existsb_exists, in_map_iff.
    split; intros (r & A & B); exists r; split; auto; now apply Z.eqb_eq. }
  destruct (delete_user_cases E i db) as [(F & R & U & C)|[X C]].
  - rewrite C. cbn [fst]. rewrite C. cbn [fst].
    split; [|split; [|split; [|split; [|split]]]]; auto.
    + intros ? ? H. injection H as <- <-. auto.
    + discriminate.
    + intros ? ? ? H. injection H as <- <- <-.
      rewrite <- existsb_id_In, <- Rec. auto.
    + eauto.
    + intros N. apply existsb_id_In in U. contradiction.
  - rewrite C. cbn [fst].
    split; [|split; [|split; [|split; [|split]]]].
    + intros ? ? H. injection H as <- <-. auto.
    + intros ? H. injection H as <-. cbn [users]. split; auto.
      intros u. rewrite filter_In, negb_true_iff, Z.eqb_neq. reflexivity.
    + discriminate.
    + intros F U R. apply existsb_id_In in U. apply Rec in R.
      destruct X as [X|[X|X]]; congruence.
    + intros N. f_equal. rewrite filter_all; [now destruct db|].
      apply existsb_false_Forall, Forall_forall. intros u I.
      rewrite negb_involutive. apply Z.eqb_neq. intros <-.
      apply N. now apply in_map.
    + destruct (delete_user_cases E i
                  {| users := filter (fun u => negb (u_id u =? i)) (users db);
                     records := records db;
                     users_seq := users_seq db;
                     records_seq := records_seq db |})
        as [(_ & _ & U & _)|[_ C']].
      * cbn [users] in U. now rewrite deleted_absent in U.
      * rewrite C'. cbn [fst users records users_seq records_seq].
        now rewrite filter_twice.
Qed.

(** X14.  After the deletion of a user nobody logs in with the email of
    that user, every other user logs in as before, and the records filed
    under the deleted identifier are served and counted as before. *)
Theorem deleted_user_cannot_login :
  forall (E : engine) (db db' : database) (u : user),
    Tables.users_ok db -> In u (users db) ->
    delete_user E (u_id u) db = (db', Success) ->
    (forall q, login (u_email u) q db' = Failed 401 "Invalid credentials") /\
    (forall v, In v (users db) -> u_id v <> u_id u ->
               login (u_email v) (u_password v) db' = User (Some (info v))) /\
    (forall role, get_records (u_id u) role db' =
                  get_records (u_id u) role db) /\
    get_stats E db' = get_stats E db.
Proof.
  intros E db db' u W I H.
  assert (W' : Tables.users_ok db').
  { change db' with (fst (db', Success)). rewrite <- H.
    now apply delete_user_users_ok. }
  destruct W as (_ & _ & _ & N & _). destruct W' as (_ & _ & _ & N' & _).
  destruct (delete_user_cases E (u_id u) db) as [(_ & _ & _ & C)|[_ C]];
    rewrite C in H; [discriminate|].
  injection H as <-. cbn [users] in *. split; [|split; [|split]].
  - intros q. apply login_refused. cbn [users]. intros v Iv.
    apply filter_In in Iv as [Iv Nv].
    apply negb_true_iff, Z.eqb_neq in Nv. unfold Tables.credentials.
    destruct (jsstring_eqb (u_email v) (u_email u)) eqn:Ee; cbn [andb]; auto.
    apply jsstring_eqb_eq in Ee.
    pose proof (emails_unique (users db) v u N Iv I Ee). congruence.
  - intros v Iv Nv. unfold login. cbn [users].
    rewrite (find_credentials _ v); auto.
    apply filter_In. split; auto. now apply negb_true_iff, Z.eqb_neq.
  - reflexivity.
  - reflexivity.
Qed.

(** ** Starting the server *)

Lemma admin_exists_iff db :
  existsb (fun u => jsstring_eqb (u_role u) (lit "admin")) (users db) = true
  <-> exists u, In u (users db) /\ u_role u = lit "admin".
Proof.
  rewrite existsb_exists.
  split; intros (u & A & B); exists u; split; auto; now apply jsstring_eqb_eq.
Qed.

Lemma email_taken_iff db e :
  existsb (fun u => jsstring_eqb (u_email u) e) (users db) = true <->
  In e (map u_email (users db)).
Proof.
  rewrite existsb_exists, in_map_iff.
  split; intros (u & A & B); exists u; split; auto; now apply jsstring_eqb_eq.
Qed.

Lemma seed_cases db :
  ((exists u, In u (users db) /\ u_role u = lit "admin") /\
   Startup.seed db = Done db) \/
  (~ (exists u, In u (users db) /\ u_role u = lit "admin") /\
   In (lit "admin@goitom.com") (map u_email (users db)) /\
   Startup.seed db = Throws "UNIQUE constraint failed: users.email") \/
  (~ (exists u, In u (users db) /\ u_role u = lit "admin") /\
   ~ In (lit "admin@goitom.com") (map u_email (users db)) /\
   Startup.seed db =
   Done {| users := users db ++
                    [{| u_id := users_seq db + 1;
                        u_email := lit "admin@goitom.com";
                        u_password := lit "admin123";
                        u_role := lit "admin";
                        u_name := lit "Administrator" |}];
           records := records db;
           users_seq := users_seq db + 1;
           records_seq := records_seq db |}).
Proof.
  unfold Startup.seed.
  destruct (existsb _ (users db)) eqn:A.
  - left. split; auto. now apply admin_exists_iff.
  - right.
    assert (NA : ~ (exists u, In u (users db) /\ u_role u = lit "admin")).
    { intros X. apply admin_exists_iff in X. congruence. }
    destruct (insert_user_cases db (lit "admin@goitom.com") (lit "admin123")
                (lit "Administrator") (lit "admin"))
      as [[X C]|[(X & V & C)|(X & V & C)]]; rewrite C.
    + left. repeat split; auto. now apply email_taken_iff.
    + vm_compute in V. discriminate.
    + right. repeat split; auto. now apply email_free_not_In.
Qed.

(** X15.  Starting the server adds the administrator, who can then log in
    with the built-in credentials, exactly when no user has the role
    [admin]; it fails when there is no administrator and the built-in
    email is taken; starting again adds nothing, and no start touches the
    records or breaks the invariants of the table of users. *)
Theorem seed_outcomes :
  forall db : database,
    ((~ (exists u, In u (users db) /\ u_role u = lit "admin") /\
      In (lit "admin@goitom.com") (map u_email (users db))) <->
     exists message, Startup.seed db = Throws message) /\
    (forall db',
       Startup.seed db = Done db' ->
       (exists u, In u (users db') /\ u_role u = lit "admin") /\
       Startup.seed db' = Done db' /\
       records db' = records db /\
       ((exists u, In u (users db) /\ u_role u = lit "admin") -> db' = db) /\
       (~ (exists u, In u (users db) /\ u_role u = lit "admin") ->
        login (lit "admin@goitom.com") (lit "admin123") db' =
        User (Some {| i_id := users_seq db + 1;
                      i_email := lit "admin@goitom.com";
                      i_name := lit "Administrator";
                      i_role := lit "admin" |})) /\
       (Tables.users_ok db -> Tables.users_ok db')) /\
    seed_admin db = match Startup.seed db with
                    | Done db' => db'
                    | Throws _ => db
                    end.
Proof.
  intros db. split; [|split].
  - destruct (seed_cases db) as [[A C]|[(A & T & C)|(A & T & C)]]; rewrite C.
    + split; [tauto|]. intros [m H]. discriminate.
    + split; eauto.
    + split; [tauto|]. intros [m H]. discriminate.
  - intros db' H.
    destruct (seed_cases db) as [[A C]|[(A & T & C)|(A & T & C)]];
      rewrite C in H; try discriminate; injection H as <-.
    + split; [exact A|]. split; [exact C|]. split; [reflexivity|].
      split; [reflexivity|]. split; [intros NA; elim (NA A)|auto].
    + set (db' := {| users := _ |}) in *.
      assert (A' : exists u, In u (users db') /\ u_role u = lit "admin").
      { eexists. split; [apply in_or_app; right; left; reflexivity|].
        reflexivity. }
      split; [exact A'|]. split; [|split; [|split; [|split]]].
      * destruct (seed_cases db') as [[_ C']|[(N & _)|(N & _)]]; tauto.
      * reflexivity.
      * tauto.
      * intros _. unfold login. cbn [users db'].
        rewrite find_app_none by now apply find_no_email.
        reflexivity.
      * intros W.
        destruct (insert_user_cases db (lit "admin@goitom.com")
                    (lit "admin123") (lit "Administrator") (lit "admin"))
          as [[X _]|[(_ & V & _)|(_ & _ & I)]].
        -- apply email_taken_iff in X. contradiction.
        -- vm_compute in V. discriminate.
        -- eapply insert_user_ok; eauto.
  - unfold seed_admin, Startup.seed.
    destruct (existsb _ (users db)); auto.
    destruct (insert_user _ _ _ _ _) as [[db' rowid]|m]; auto.
Qed.

(** X16.  Once the users with the role [admin] have been deleted and the
    built-in email has been taken by a sign-up, the server does not start
    again: the insertion of the administrator is refused. *)
Theorem seed_fails_after_admin_replaced :
  forall (E : engine) (env1 env2 : environment) (db : database) (a : Z)
         (f : Page.form),
    (forall v, In v (users db) -> u_role v = lit "admin" -> u_id v = a) ->
    (forall v, In v (users db) -> u_email v = lit "admin@goitom.com" ->
               u_id v = a) ->
    foreign_keys E = false \/ ~ In a (map user_id (records db)) ->
    Page.f_email f = lit "admin@goitom.com" ->
    Startup.seed
      (serve E [(env1, DeleteUser a); (env2, Page.handleSignup f)] db) =
    Throws "UNIQUE constraint failed: users.email".
Proof.
  intros E env1 env2 db a f Adm Adr Fk Em.
  cbn [serve handle Page.handleSignup]. rewrite Em.
  destruct (delete_user_cases E a db) as [(F & R & _ & _)|[_ C]].
  { destruct Fk as [Fk|Fk]; [congruence|]. elim Fk.
    apply existsb_exists in R as (r & I & Eq). apply Z.eqb_eq in Eq.
    rewrite <- Eq. now apply in_map. }
  rewrite C. cbn [fst].
  set (db1 := {| users := _ |}).
  assert (U1 : forall v, In v (users db1) -> In v (users db) /\ u_id v <> a).
  { intros v I. cbn [users db1] in I. apply filter_In in I as [I N].
    now apply negb_true_iff, Z.eqb_neq in N. }
  destruct (signup_cases (lit "admin@goitom.com") (Page.f_password f)
              (Page.f_name f) None db1) as [[[X|X] _]|(_ & _ & C1)].
  - apply email_taken_iff, in_map_iff in X as (v & Ev & Iv).
    destruct (U1 v Iv) as [I N]. elim N. auto.
  - vm_compute in X. discriminate.
  - rewrite C1. cbn [fst].
    set (db2 := {| users := _ |}).
    destruct (seed_cases db2) as [[A _]|[(_ & _ & S)|(_ & T & _)]]; auto.
    + destruct A as (v & Iv & Rv). cbn [users db2] in Iv.
      apply in_app_or in Iv as [Iv|[<-|[]]].
      * destruct (U1 v Iv) as [I N]. elim N. auto.
      * vm_compute in Rv. discriminate.
    + elim T. cbn [users db2]. rewrite map_app. apply in_or_app. right.
      left. reflexivity.
Qed.

(** ** Records and their users *)

Lemma handle_references_ok E env req db :
  foreign_keys E = true ->
  Tables.references_ok db -> Tables.references_ok (fst (handle E env req db)).
Proof.
  intros Fk W. unfold Tables.references_ok in *.
  destruct req as [|e p|e p n r|b|u r| |i e n p|i|]; cbn [handle fst]; auto.
  - destruct (signup_cases e p n r db) as [[_ C]|(_ & _ & C)]; rewrite C;
      cbn [fst users records]; auto.
    eapply Forall_impl; [|exact W]. cbn. intros x I.
    rewrite map_app. apply in_or_app. now left.
  - destruct (post_records_cases E env b db)
      as [[_ C]|[(_ & _ & C)|[(_ & _ & _ & C)|(_ & F & reply & _ & C)]]];
      rewrite C; cbn [fst users records]; auto.
    apply Forall_app. split; auto. constructor; [|constructor].
    cbn [user_id]. unfold foreign_key_violation in F. rewrite Fk in F.
    cbn [andb] in F. apply negb_false_iff in F. now apply existsb_id_In.
  - destruct (put_profile i e n p db) as [db' answer] eqn:H. cbn [fst].
    destruct (put_profile_cases i e n p db)
      as [(_ & _ & C)|(_ & pw' & _ & C)]; rewrite C in H;
      injection H as <- _; cbn [users records]; auto.
    eapply Forall_impl; [|exact W]. cbn. intros x I.
    rewrite map_map. erewrite map_ext; [exact I|].
    intros a. apply updated_id.
  - destruct (delete_user_cases E i db) as [(_ & _ & _ & C)|[X C]];
      rewrite C; cbn [fst users records]; auto.
    rewrite Forall_forall in *. intros x I. specialize (W x I).
    apply in_map_iff in W as (u & Eu & Iu). apply in_map_iff.
    exists u. split; auto. apply filter_In. split; auto.
    apply negb_true_iff, Z.eqb_neq. intros Ei.
    destruct X as [X|[X|X]]; [congruence| |].
    + apply existsb_false_Forall in X. rewrite Forall_forall in X.
      specialize (X x I). apply Z.eqb_neq in X. congruence.
    + apply existsb_false_Forall in X. rewrite Forall_forall in X.
      specialize (X u Iu). apply Z.eqb_neq in X. congruence.
Qed.

(** X17.  With foreign keys enforced, every record stays filed under the
    identifier of a user of the table, over every sequence of requests
    whose [userId] is a number: a submission for an unknown user is
    refused and a user with records is not deleted. *)
Theorem served_references_ok :
  forall (E : engine) (reqs : list (environment * request)) (db : database),
    foreign_keys E = true ->
    Tables.references_ok db -> Tables.references_ok (serve E reqs db).
Proof.
  intros E reqs. induction reqs as [|[env req] rest IH]; intros db Fk W;
    cbn [serve]; auto.
  apply IH; auto. now apply handle_references_ok.
Qed.

(** ** The messages of the page *)

(** X25.  A login refused through the page always shows the message for
    wrong credentials; a sign-up through the page is refused exactly when
    the email is taken and then always shows the message that the email
    exists. *)
Theorem page_error_messages :
  forall (E : engine) (env : environment) (f : Page.form) (db : database),
    (Page.login_error (snd (handle E env (Page.handleLogin f) db)) = None \/
     Page.login_error (snd (handle E env (Page.handleLogin f) db)) =
     Some "Credenciais inválidas"%string) /\
    (Page.signup_error (snd (handle E env (Page.handleSignup f) db)) = None \/
     Page.signup_error (snd (handle E env (Page.handleSignup f) db)) =
     Some "O email já existe"%string) /\
    (In (Page.f_email f) (map u_email (users db)) <->
     Page.signup_error (snd (handle E env (Page.handleSignup f) db)) =
     Some "O email já existe"%string).
Proof.
  intros E env f db. cbn [handle Page.handleLogin Page.handleSignup snd].
  split; [|split].
  - unfold login. destruct (find _ (users db)); cbn; auto.
  - destruct (signup_cases (Page.f_email f) (Page.f_password f)
                (Page.f_name f) None db) as [[_ C]|(_ & _ & C)];
      rewrite C; cbn; auto.
  - rewrite <- email_taken_iff.
    destruct (signup_cases (Page.f_email f) (Page.f_password f)
                (Page.f_name f) None db) as [[[X|X] C]|(X & _ & C)];
      rewrite C; cbn [snd Page.signup_error].
    + split; auto.
    + vm_compute in X. discriminate.
    + rewrite X. split; discriminate.
Qed.

(** ** The totals of the statistics *)

Section Partition.
Context {A K : Type}.
Variable eqb : K -> K -> bool.
Variable key : A -> K.
Variable f : A -> Z.
Hypothesis eqb_eq : forall x y, eqb x y = true <-> x = y.





End Partition.










(** ** From a submission to the history *)

Lemma sort_newest {A} (before : A -> A -> bool) l x :
  Forall (fun y => before y x = false) l ->
  sort before (l ++ [x]) = x :: sort before l.
Proof.
  induction 1 as [|y t Hy F IH]; [reflexivity|].
  cbn [app sort fold_right]. fold (sort before (t ++ [x])).
  fold (sort before t). rewrite IH. cbn [insert]. now rewrite Hy.
Qed.

Lemma by_timestamp_desc_newest rows r :
  Forall (fun x => timestamp x < timestamp r) rows ->
  by_timestamp_desc (rows ++ [r]) = r :: by_timestamp_desc rows.
Proof.
  intros F. unfold by_timestamp_desc, order_by_desc. apply sort_newest.
  eapply Forall_impl; [|exact F]. cbn. intros x Hx. apply Z.leb_gt. exact Hx.
Qed.

Lemma get_records_appended uid role db db' r :
  records db' = records db ++ [r] -> user_id r = uid ->
  Permutation (get_records uid role db') (r :: get_records uid role db) /\
  (Forall (fun x => timestamp x < timestamp r) (records db) ->
   get_records uid role db' = r :: get_records uid role db).
Proof.
  intros R U. unfold get_records. rewrite R.
  assert (Fl : filter (fun x => user_id x =? uid) (records db ++ [r]) =
               filter (fun x => user_id x =? uid) (records db) ++ [r]).
  { rewrite filter_app. cbn [filter]. now rewrite U, Z.eqb_refl. }
  rewrite Fl. split.
  - destruct (jsstring_eqb role (lit "admin"));
      unfold by_timestamp_desc, order_by_desc;
      rewrite !sort_perm; symmetry; apply Permutation_cons_append.
  - intros F. destruct (jsstring_eqb role (lit "admin"));
      apply by_timestamp_desc_newest; auto. now apply Forall_filter.
Qed.

(** X19.  A created record is listed at once in the history of the user it
    was filed under, whatever the role asked for, with the members of the
    submission: the whole payload as its image and the time of the
    insertion.  When the clock has advanced since every earlier record, it
    is the first of the list and the rest of the list is as before. *)
Theorem submission_listed :
  forall (E : engine) (env : environment) (b : record_body)
         (db db' : database) (rid : Z) (count : number) (role : jsstring),
    post_records E env b db = (db', Created rid count) ->
    exists r,
      In r (get_records (userId b) role db') /\
      id r = rid /\ bread_count r = count /\ user_id r = userId b /\
      employee_name r = employeeName b /\
      provider_name r = providerName b /\
      image_url r = imageBase64 b /\
      cash_amount r = bound_cash (cashAmount b) /\
      timestamp r = now env /\
      Permutation (get_records (userId b) role db')
                  (r :: get_records (userId b) role db) /\
      (Forall (fun x => timestamp x < now env) (records db) ->
       get_records (userId b) role db' =
       r :: get_records (userId b) role db).
Proof.
  intros E env b db db' rid count role H.
  destruct (post_records_cases E env b db)
    as [[_ C]|[(_ & _ & C)|[(_ & _ & _ & C)|(K & _ & reply & G & C)]]];
    rewrite C in H; try discriminate.
  injection H as <- <- <-.
  set (r := {| id := records_seq db + 1 |}).
  set (db' := {| users := users db |}).
  destruct (get_records_appended (userId b) role db db' r eq_refl eq_refl)
    as [P N].
  exists r. split.
  - eapply Permutation_in; [symmetry; exact P|]. now left.
  - repeat split; auto.
Qed.

(** X20.  What is published from the page is filed under the user who is
    logged in and appears in the history the page fetches for that user,
    admin or not, with the capture as its image. *)
Theorem published_capture_in_history :
  forall (E : engine) (env env' : environment) (st : publish_state)
         (u : UserData) (b : record_body) (db db' : database) (rid : Z)
         (count : number),
    st_user st = Some u ->
    handlePublish st = Some b ->
    post_records E env b db = (db', Created rid count) ->
    exists req rows r,
      Page.fetchRecords (Some u) = Some req /\
      snd (handle E env' req db') = Records rows /\
      In r rows /\
      id r = rid /\ bread_count r = count /\
      user_id r = ud_id u /\ employee_name r = ud_name u /\
      provider_name r = st_providerName st /\
      Some (image_url r) = capturedImage st.
Proof.
  intros E env env' st u b db db' rid count U P H.
  assert (B : userId b = ud_id u /\ employeeName b = ud_name u /\
              providerName b = st_providerName st /\
              Some (imageBase64 b) = capturedImage st).
  { unfold handlePublish in P. rewrite U in P.
    destruct (capturedImage st) as [img|]; [|discriminate].
    destruct (_ && _); [|discriminate]. injection P as <-. auto. }
  destruct B as (B1 & B2 & B3 & B4).
  destruct (post_records_cases E env b db)
    as [[_ C]|[(_ & _ & C)|[(_ & _ & _ & C)|(K & _ & reply & G & C)]]];
    rewrite C in H; try discriminate.
  injection H as <- <- <-.
  set (r := {| id := records_seq db + 1 |}).
  set (db' := {| users := users db |}).
  destruct (get_records_appended (ud_id u) (ud_role u) db db' r eq_refl B1)
    as [Pm _].
  exists (GetRecords (ud_id u) (ud_role u)), (get_records (ud_id u)
                                               (ud_role u) db'), r.
  split; [reflexivity|]. split; [reflexivity|]. split.
  - eapply Permutation_in; [symmetry; exact Pm|]. now left.
  - repeat split; auto.
Qed.

(** X21.  An account created with the form of the page is an employee for
    good: whenever somebody later logs in and is answered the identifier
    of that account, the history the page fetches holds only records
    filed under that identifier. *)
Theorem signed_up_sees_own_records :
  forall (E : engine) (env env1 env2 : environment) (f f' : Page.form)
         (reqs : list (environment * request)) (db db1 : database)
         (i : user_info) (u : UserData),
    Tables.users_ok db ->
    handle E env (Page.handleSignup f) db = (db1, User (Some i)) ->
    Page.setUser
      (snd (handle E env1 (Page.handleLogin f') (serve E reqs db1))) None =
    Some u ->
    ud_id u = i_id i ->
    ud_role u = lit "employee" /\
    exists req rows,
      Page.fetchRecords (Some u) = Some req /\
      snd (handle E env2 req (serve E reqs db1)) = Records rows /\
      rows = get_records (i_id i) (lit "employee") (serve E reqs db1) /\
      Forall (fun r => user_id r = i_id i) rows.
Proof.
  intros E env env1 env2 f f' reqs db db1 i u W S L Id.
  cbn [handle Page.handleSignup] in S.
  assert (W1 : Tables.users_ok db1).
  { change db1 with (fst (db1, User (Some i))). rewrite <- S.
    exact (handle_users_ok E env (PostSignup _ _ _ None) db W). }
  destruct (signup_cases (Page.f_email f) (Page.f_password f)
              (Page.f_name f) None db) as [[_ C]|(_ & _ & C)];
    rewrite C in S; [discriminate|].
  injection S as <- <-. cbn [i_id] in *.
  set (db1 := {| users := _ |}) in *.
  cbn [handle Page.handleLogin snd] in L. unfold login in L.
  destruct (find _ (users (serve E reqs db1))) as [v|] eqn:F;
    cbn [Page.setUser] in L; [|discriminate].
  injection L as <-. cbn [ud_id ud_role info i_id i_role] in *.
  apply find_some in F as [Iv _].
  assert (R : u_role v = lit "employee").
  { rewrite (serve_role_of E reqs db1
               {| u_id := users_seq db + 1; u_email := Page.f_email f;
                  u_password := Page.f_password f;
                  u_role := lit "employee"; u_name := Page.f_name f |} v);
      auto.
    cbn [users db1]. apply in_or_app. right. now left. }
  split; [exact R|].
  exists (GetRecords (u_id v) (u_role v)). eexists.
  split; [reflexivity|]. cbn [handle snd]. split; [reflexivity|].
  rewrite R, Id. split; [reflexivity|].
  unfold get_records.
  replace (jsstring_eqb (lit "employee") (lit "admin")) with false
    by (vm_compute; reflexivity).
  apply Forall_forall. intros r Ir.
  apply sort_In, filter_In in Ir as [_ Ir]. now apply Z.eqb_eq.
Qed.

(** ** The dashboard and the chart *)

(** X22.  The dashboard shows at most three records of the history, none
    older than a record it leaves out, and the whole history when that
    has at most three records. *)
Theorem dashboard_shows_newest :
  forall (uid : Z) (role : jsstring) (db : database),
    let history := get_records uid role db in
    (List.length (Page.recent history) <= 3)%nat /\
    (forall a b, In a (Page.recent history) -> In b (skipn 3 history) ->
                 timestamp b <= timestamp a) /\
    ((List.length history <= 3)%nat -> Page.recent history = history) /\
    (forall a, In a (Page.recent history) -> In a (records db)) /\
    StronglySorted (fun a b => timestamp b <= timestamp a)
                   (Page.recent history).
Proof.
  intros uid role db history.
  assert (S : StronglySorted (fun a b => timestamp b <= timestamp a) history).
  { unfold history, get_records.
    destruct (jsstring_eqb role (lit "admin"));
      apply order_by_desc_Z_sorted. }
  unfold Page.recent. split; [|split; [|split; [|split]]].
  - apply firstn_le_length.
  - rewrite <- (firstn_skipn 3 history) in S.
    intros a b. apply (strongly_sorted_app _ _ _ S).
  - apply firstn_all2.
  - intros a I. apply firstn_In in I. unfold history, get_records in I.
    destruct (jsstring_eqb role (lit "admin"));
      apply sort_In in I; auto. now apply filter_In in I.
  - now apply strongly_sorted_firstn.
Qed.

(** X23.  The label under a bar of the chart is the date without its
    year, month and day joined by a slash; a text without hyphen gives an
    empty label. *)
Theorem day_label_month_day :
  forall y m d : jsstring,
    let plain := forallb (fun c => negb (c =? 45)%N) in
    (plain y = true -> Page.day_label y = []) /\
    (plain y = true -> plain m = true -> plain d = true ->
     Page.day_label (y ++ 45%N :: m ++ 45%N :: d) = m ++ 47%N :: d) /\
    (plain y = true -> plain m = true ->
     Page.day_label (y ++ 45%N :: m) = m).
Proof.
  intros y m d plain. unfold Page.day_label. split; [|split].
  - intros Y. now rewrite split_no_separator.
  - intros Y M D.
    rewrite split_at_separator, split_at_separator, split_no_separator; auto.
  - intros Y M. rewrite split_at_separator, split_no_separator; auto.
Qed.

(** ** The list of users *)

Lemma valid_role_not_admin r :
  valid_role r = true ->
  negb (jsstring_eqb r (lit "admin")) = jsstring_eqb r (lit "employee").
Proof.
  unfold valid_role. destruct (jsstring_eqb r (lit "admin")) eqn:A.
  - apply jsstring_eqb_eq in A. now subst r.
  - cbn [orb negb]. now intros ->.
Qed.

Lemma filter_ext_Forall {A} (p q : A -> bool) l :
  Forall (fun x => p x = q x) l -> filter p l = filter q l.
Proof.
  induction 1 as [|x t E _ IH]; [reflexivity|].
  cbn [filter]. now rewrite E, IH.
Qed.

(** X24.  On a table that satisfies its invariants, where every role is
    one of the two roles, the list of users holds the users with the role
    [employee] and no other: each of them once, by ascending identifier,
    which is the order of the table, and without the password. *)
Theorem get_users_lists_employees :
  forall db : database,
    Tables.users_ok db ->
    exists us,
      get_users db = Users us /\
      us = map info (filter (fun u => jsstring_eqb (u_role u)
                                                   (lit "employee"))
                            (users db)) /\
      (forall u, In u (users db) ->
                 (In (info u) us <-> u_role u = lit "employee")) /\
      Forall (fun i => i_role i = lit "employee") us /\
      StronglySorted (fun a b => i_id a < i_id b) us.
Proof.
  intros db (_ & S & _ & _ & R). unfold get_users. eexists.
  split; [reflexivity|].
  assert (map info
            (filter (fun u => negb (jsstring_eqb (u_role u) (lit "admin")))
                    (users db)) =
          map info
            (filter (fun u => jsstring_eqb (u_role u) (lit "employee"))
                    (users db))) as ->.
  { f_equal. apply filter_ext_Forall.
    eapply Forall_impl; [|exact R].
    intros u. apply valid_role_not_admin. }
  split; [reflexivity|]. split; [|split].
  - intros u Iu. rewrite in_map_iff. split.
    + intros (v & Ev & Iv). apply filter_In in Iv as [_ Rv].
      apply jsstring_eqb_eq in Rv.
      assert (i_role (info v) = i_role (info u)) as Er by now rewrite Ev.
      cbn [info i_role] in Er. congruence.
    + intros Ru. exists u. split; [reflexivity|].
      apply filter_In. split; [exact Iu|]. now apply jsstring_eqb_eq.
  - apply Forall_forall. intros i Ii.
    apply in_map_iff in Ii as (u & <- & Iu).
    apply filter_In in Iu as [_ Ru]. now apply jsstring_eqb_eq in Ru.
  - apply strongly_sorted_map. now apply strongly_sorted_filter.
Qed.

(** ** Concrete runs *)

Import Scenario.

(** Replies and their counts. *)
Example breadCount_replies :
  breadCount (Some (lit "3 loaves")) = Int 3 /\
  breadCount (Some (lit "no bread here")) = Int 0 /\
  breadCount (Some (lit "")) = Int 0 /\
  breadCount None = Int 0 /\
  breadCount (Some (lit "between 4 and 5")) = Int 45 /\
  breadCount (Some (lit "9007199254740993")) = Int 9007199254740992.
Proof. vm_compute. repeat split. Qed.

(** C2: a reply of 16 digits whose count is not the integer its digits
    denote, and a reply of 400 digits whose count is no integer. *)
Lemma breadCount_rounds_long_replies :
  filter isDigit (lit "9007199254740993") = lit "9007199254740993" /\
  Spec.count_of_reply (Some (lit "9007199254740993")) =
    Int 9007199254740993 /\
  breadCount (Some (lit "9007199254740993")) = Int 9007199254740992 /\
  (9007199254740992 =? 9007199254740993) = false /\
  forallb isDigit (repeat 57%N 400) = true /\
  breadCount (Some (repeat 57%N 400)) = Inf false.
Proof. vm_compute. repeat split. Qed.

(** [toNumber] against the rounding of the largest integers. *)
Example toNumber_rounding :
  toNumber (2 ^ 53 + 1) = Int (2 ^ 53) /\
  toNumber (2 ^ 53 + 3) = Int (2 ^ 53 + 4) /\
  toNumber (2 ^ 1024 - 2 ^ 970 - 1) = Int (2 ^ 1024 - 2 ^ 971) /\
  toNumber (2 ^ 1024 - 2 ^ 970) = Inf false.
Proof. vm_compute. repeat split. Qed.

Example parseFloat_texts :
  parseFloat (lit "1500") = Z2double 1500 /\
  parseFloat (lit "12.5 kz") = SFdiv prec emax (Z2double 25) (Z2double 2) /\
  parseFloat (lit "abc") = S754_nan /\
  parseFloat (lit "") = S754_nan /\
  parseFloat (lit "1e999") = S754_infinity false.
Proof. vm_compute. repeat split. Qed.

(** The first scenario: a reply "3 loaves" for Ana with 1500 typed as
    amount. *)
Example scenario_first_submission :
  forall E : engine,
    let out := post_records E (replying "3 loaves" t_2230) (body "1500")
                            db_start in
    snd out = Created 1 (Int 3) /\
    map bread_count (records (fst out)) = [Int 3] /\
    map cash_amount (records (fst out)) = [Some (Z2double 1500)].
Proof.
  intros [sum fk count all]. destruct fk; vm_compute; repeat split.
Qed.

Example scenario_totals :
  totalByEmployee (running_engine true)
    (records (fst (post_records (running_engine true)
                     (replying "" t_2330) body_without_cash
                     (fst (post_records (running_engine true)
                             (replying "3 loaves" t_2230) (body "1500")
                             db_start))))) =
  Done [{| emp_employee_name := lit "Ana"; emp_total := Int 3;
           emp_total_cash := Some (Z2double 1500) |}].
Proof. vm_compute. reflexivity. Qed.

Example scenario_missing_key :
  forall E : engine,
    post_records E (unconfigured t_2230) (body "1500") db_start =
    (db_start, Failed 500 "Gemini API key not configured").
Proof. reflexivity. Qed.

Lemma db_start_well_formed : Spec.well_formed db_start.
Proof. unfold Spec.well_formed. cbn. repeat split; try constructor. lia. Qed.

(** The invariants after two submissions. *)
Lemma served_well_formed_witness :
  Spec.well_formed
    (serve (running_engine true)
           [(replying "2" t_2230, PostRecords (body "1500"));
            (replying "3" t_2330, PostRecords (body ""))] db_start).
Proof.
  exact (served_well_formed (running_engine true) _ db_start
                            db_start_well_formed).
Defined.

Lemma served_timestamps_sorted_witness :
  StronglySorted (fun a b => timestamp a <= timestamp b)
    (records
       (serve (running_engine true)
              [(replying "2" t_2230, PostRecords (body "1500"));
               (replying "3" t_2330, PostRecords (body ""))] db_start)).
Proof.
  apply (served_timestamps_sorted (running_engine true) _ db_start 0).
  - constructor.
  - constructor.
  - cbn. unfold t_2230, t_2330. lia.
Defined.

Lemma resubmission_witness :
  exists db2 r1 r2,
    post_records (running_engine true) (replying "3 loaves" t_2230)
      (body "1500")
      (fst (post_records (running_engine true) (replying "3 loaves" t_2230)
                         (body "1500") db_start)) =
    (db2, Created (1 + 1) (Int 3)) /\
    records db2 = records db_start ++ [r1; r2] /\
    id r1 = 1 /\ id r2 = 1 + 1 /\
    bread_count r1 = Int 3 /\ bread_count r2 = Int 3.
Proof.
  apply (resubmission_creates_second_record (running_engine true)
           (replying "3 loaves" t_2230) (body "1500") db_start).
  vm_compute. reflexivity.
Defined.


(** C3 at a server without the key. *)
Lemma post_records_failed_witness :
  post_records (running_engine true) (unconfigured t_2230) (body "1500")
               db_start =
  (db_start, Failed 500 "Gemini API key not configured").
Proof.
  exact (proj1 (proj2 (post_records_failed (running_engine true)
                         (unconfigured t_2230) (body "1500") db_start))
               eq_refl).
Defined.

(** C6 at the two records of one evening. *)
Lemma get_records_listing_witness :
  lit "employee" <> lit "admin" /\
  Permutation
    (get_records 2 (lit "employee") (db_evening (running_engine true)))
    (filter (fun r => user_id r =? 2)
            (records (db_evening (running_engine true)))).
Proof.
  assert (H : lit "employee" <> lit "admin") by (vm_compute; discriminate).
  split; [exact H|].
  exact (proj1 (get_records_listing 2 (lit "employee")
                  (db_evening (running_engine true)) H)).
Defined.

Example get_records_newest_first :
  map id (get_records 2 (lit "employee") (db_evening (running_engine true)))
  = [2; 1].
Proof. vm_compute. reflexivity. Qed.






(** C10: a payload without a data-URI prefix. *)
Lemma bare_payload_sends_no_data :
  str_truthy (imageBase64 bare_body) = true /\
  Spec.strip_data_uri (imageBase64 bare_body) = imageBase64 bare_body /\
  data (inline (vision_request bare_body)) = None /\
  data (inline (vision_request (body "1500"))) =
    Some (Spec.strip_data_uri jpeg).
Proof. vm_compute. repeat split. Qed.

(** C9.  The page sends 0 for an empty or non-numeric text and the
    server stores 0 for a body without [cashAmount]; but a [null] member,
    which is what the page sends for the text [1e999], is accepted and
    persisted as NULL, not as 0. *)
Theorem null_cashAmount_persists_null :
  cashAmount (body "") = CashNum dzero /\
  cashAmount (body "abc") = CashNum dzero /\
  cashAmount body_without_cash = CashAbsent /\
  map cash_amount
      (records (fst (post_records (running_engine true) (replying "3" t_2230)
                                  body_without_cash db_start))) =
    [Some dzero] /\
  cashAmount (body "1e999") = CashNull /\
  snd (post_records (running_engine true) (replying "3" t_2230)
                    (body "1e999") db_start) = Created 1 (Int 3) /\
  map cash_amount
      (records (fst (post_records (running_engine true) (replying "3" t_2230)
                                  (body "1e999") db_start))) = [None].
Proof. vm_compute. repeat split. Qed.

Example cashAmount_texts :
  cashAmount (body "") = CashNum dzero /\
  cashAmount (body "abc") = CashNum dzero /\
  cashAmount (body "1500") = CashNum (Z2double 1500) /\
  bound_cash (cashAmount body_without_cash) = Some dzero.
Proof. vm_compute. repeat split. Qed.

(** ** Concrete runs of the accounts *)

Lemma db_start_users_ok : Tables.users_ok db_start.
Proof.
  unfold Tables.users_ok. cbn [db_start].
  split; [vm_compute; discriminate|]. split; [|split; [|split]].
  - repeat constructor.
  - repeat constructor; vm_compute; discriminate.
  - repeat constructor; cbn; intuition discriminate.
  - repeat constructor.
Qed.

Lemma served_users_ok_witness :
  Tables.users_ok
    (serve (running_engine true)
           [(unconfigured t_2230, Page.handleSignup rui_form);
            (unconfigured t_2230, DeleteUser 2);
            (unconfigured t_2330, PutProfile 3 (lit "rui@padaria.com")
                                             (lit "Rui") None)] db_start).
Proof.
  exact (proj1 (served_users_ok (running_engine true) _ db_start
                  db_start_users_ok)).
Defined.

Lemma signup_then_login_witness :
  login (lit "rui@goitom.com") (lit "farinha") (db_rui (running_engine true))
  = User (Some rui_info).
Proof.
  exact (proj1 (signup_then_login (lit "rui@goitom.com") (lit "farinha")
                  (lit "Rui") None db_start (db_rui (running_engine true))
                  rui_info eq_refl)).
Defined.

(** Ana is deleted before Rui signs up: Rui is not given her identifier. *)
Lemma user_ids_never_reused_witness :
  Forall (fun u => u_id u < 3) (users db_start).
Proof.
  exact (proj1 (proj2
    (user_ids_never_reused (running_engine false)
       [(unconfigured t_2230, DeleteUser 2)]
       (lit "rui@goitom.com") (lit "farinha") (lit "Rui") None db_start
       (fst (signup (lit "rui@goitom.com") (lit "farinha") (lit "Rui") None
               (serve (running_engine false)
                      [(unconfigured t_2230, DeleteUser 2)] db_start)))
       rui_info db_start_users_ok eq_refl))).
Defined.

Lemma roles_are_permanent_witness :
  u_role ana_renamed = u_role ana_row.
Proof.
  apply (proj1 (roles_are_permanent (running_engine true)
                  [(unconfigured t_2230,
                    PutProfile 2 (lit "ana.silva@goitom.com")
                               (lit "Ana Silva") None)]
                  db_start ana_renamed db_start_users_ok
                  (or_intror (or_introl eq_refl))) ana_row).
  - right. left. reflexivity.
  - reflexivity.
Defined.

Lemma put_profile_outcomes_witness :
  put_profile 7 (lit "x@goitom.com") (lit "X") None db_start =
  (db_start, User None) /\
  put_profile 2 (lit "admin@goitom.com") (lit "Ana") None db_start =
  (db_start, Failed 400 "Email já existe ou erro ao atualizar").
Proof.
  split.
  - apply (proj1 (put_profile_outcomes 7 (lit "x@goitom.com") (lit "X") None
                    db_start db_start_users_ok)).
    cbn. intuition discriminate.
  - apply (proj1 (proj1 (proj2
             (put_profile_outcomes 2 (lit "admin@goitom.com") (lit "Ana")
                None db_start db_start_users_ok)) ana_row
             (or_intror (or_introl eq_refl)) eq_refl)).
    eexists. split; [left; reflexivity|]. split; [discriminate|reflexivity].
Defined.

Lemma put_profile_then_login_witness :
  login (lit "ana.silva@goitom.com") (lit "secret")
        (fst (put_profile 2 (lit "ana.silva@goitom.com") (lit "Ana Silva")
                          (Some []) db_start)) =
  User (Some ana_info).
Proof.
  exact (proj1 (put_profile_then_login (lit "ana.silva@goitom.com")
                  (lit "Ana Silva") (Some []) db_start _ ana_row ana_info
                  db_start_users_ok (or_intror (or_introl eq_refl))
                  eq_refl)).
Defined.

Lemma profile_form_keeps_password_witness :
  login (lit "ana.silva@goitom.com") (lit "secret")
        (fst (put_profile 2 (lit "ana.silva@goitom.com") (lit "Ana Silva")
                          None db_start)) =
  User (Some ana_info).
Proof.
  exact (proj1 (proj2
    (profile_form_keeps_password (running_engine true) (unconfigured t_2230)
       ana_profile ana ana_row db_start _ _ ana_info
       db_start_users_ok (or_intror (or_introl eq_refl)) eq_refl eq_refl
       eq_refl)) eq_refl).
Defined.

Lemma deleted_user_cannot_login_witness :
  login (lit "ana@goitom.com") (lit "secret")
        (fst (delete_user (running_engine true) 2 db_start)) =
  Failed 401 "Invalid credentials".
Proof.
  exact (proj1 (deleted_user_cannot_login (running_engine true) db_start _
                  ana_row db_start_users_ok (or_intror (or_introl eq_refl))
                  eq_refl) (lit "secret")).
Defined.

(** The administrator is deleted and the built-in email is taken. *)
Lemma seed_fails_after_admin_replaced_witness :
  Startup.seed
    (serve (running_engine true)
           [(unconfigured t_2230, DeleteUser 1);
            (unconfigured t_2330, Page.handleSignup taker_form)] db_start) =
  Throws "UNIQUE constraint failed: users.email".
Proof.
  apply (seed_fails_after_admin_replaced (running_engine true)
           (unconfigured t_2230) (unconfigured t_2330) db_start 1
           taker_form).
  - cbn. intros v [<-|[<-|[]]]; [reflexivity|discriminate].
  - cbn. intros v [<-|[<-|[]]]; [reflexivity|discriminate].
  - right. cbn. tauto.
  - reflexivity.
Defined.



(** X24 at the table of the first start. *)
Lemma get_users_lists_employees_witness :
  exists us,
    get_users db_start = Users us /\
    us = map info (filter (fun u => jsstring_eqb (u_role u)
                                                 (lit "employee"))
                          (users db_start)) /\
    (forall u, In u (users db_start) ->
               (In (info u) us <-> u_role u = lit "employee")) /\
    Forall (fun i => i_role i = lit "employee") us /\
    StronglySorted (fun a b => i_id a < i_id b) us.
Proof.
  exact (get_users_lists_employees db_start db_start_users_ok).
Defined.

Lemma submission_listed_witness :
  exists r,
    In r (get_records 2 (lit "employee")
            (fst (post_records (running_engine true)
                    (replying "3 loaves" t_2230) (body "1500") db_start))) /\
    id r = 1 /\ bread_count r = Int 3 /\ user_id r = 2 /\
    employee_name r = lit "Ana" /\ provider_name r = lit "Rui" /\
    image_url r = jpeg.
Proof.
  destruct (submission_listed (running_engine true)
              (replying "3 loaves" t_2230) (body "1500") db_start _ 1 (Int 3)
              (lit "employee") eq_refl)
    as (r & I & H1 & H2 & H3 & H4 & H5 & H6 & _).
  exists r. repeat split; assumption.
Defined.

Lemma published_capture_in_history_witness :
  exists req rows r,
    Page.fetchRecords (Some ana) = Some req /\
    snd (handle (running_engine true) (unconfigured t_2330) req
           (fst (post_records (running_engine true)
                   (replying "3 loaves" t_2230) (body "1500") db_start))) =
    Records rows /\
    In r rows /\ id r = 1 /\ bread_count r = Int 3 /\ user_id r = 2.
Proof.
  destruct (published_capture_in_history (running_engine true)
              (replying "3 loaves" t_2230) (unconfigured t_2330)
              (page "1500") ana (body "1500") db_start _ 1 (Int 3)
              eq_refl eq_refl eq_refl)
    as (req & rows & r & F & G & I & H1 & H2 & H3 & _).
  exists req, rows, r. repeat split; assumption.
Defined.

Lemma signed_up_sees_own_records_witness :
  ud_role rui = lit "employee" /\
  exists req rows,
    Page.fetchRecords (Some rui) = Some req /\
    snd (handle (running_engine true) (unconfigured t_2330) req
           (serve (running_engine true)
                  [(replying "2" t_2230, PostRecords (body "1500"))]
                  (db_rui (running_engine true)))) = Records rows /\
    rows = get_records 3 (lit "employee")
             (serve (running_engine true)
                    [(replying "2" t_2230, PostRecords (body "1500"))]
                    (db_rui (running_engine true))) /\
    Forall (fun r => user_id r = 3) rows.
Proof.
  exact (signed_up_sees_own_records (running_engine true)
           (unconfigured t_2230) (unconfigured t_2330) (unconfigured t_2330)
           rui_form rui_form
           [(replying "2" t_2230, PostRecords (body "1500"))]
           db_start (db_rui (running_engine true)) rui_info rui
           db_start_users_ok eq_refl eq_refl eq_refl).
Defined.

(** Accounts, the chart and the list of users at the scenario. *)
Example scenario_accounts :
  get_users db_start =
    Users [{| i_id := 2; i_email := lit "ana@goitom.com";
              i_name := lit "Ana"; i_role := lit "employee" |}] /\
  Startup.seed empty_db = Done (seed_admin empty_db) /\
  Startup.seed db_start = Done db_start /\
  Page.day_label (lit "2024-01-05") = lit "01/05" /\
  map id (Page.recent
            (get_records 2 (lit "admin") (db_evening (running_engine true))))
    = [2; 1].
Proof. vm_compute. repeat split. Qed.

Lemma db_start_references_ok : Tables.references_ok db_start.
Proof. constructor. Qed.

Lemma served_references_ok_witness :
  Tables.references_ok
    (serve (running_engine true)
           [(replying "2" t_2230, PostRecords (body "1500"));
            (unconfigured t_2330, DeleteUser 2)] db_start).
Proof.
  exact (served_references_ok (running_engine true) _ db_start eq_refl
           db_start_references_ok).
Defined.
